(** * Cement blend cost optimiser: a shallow embedding of [cement_optimizer.py]

    The script poses one linear program per page refresh,

      minimise  sum_i prices[i] * x[i]
      subject to sum_i x[i] = 1  and  min_ratios[i] <= x[i] <= max_ratios[i],

    hands it to [scipy.optimize.linprog], and compares the optimum with the
    July recipe.  Python floats are read as exact rationals ([Q], compared
    with [==]); rounding inside the solver is outside this development.

    [linprog] is library code.  The program is therefore embedded over an
    arbitrary solver [linprog], the properties the program relies on are
    collected in [linprog_contract], and [ExactLP.linprog] is an executable
    exact solver for the program's problem family that is proved to meet
    the contract. *)

From Stdlib Require Import String ZArith QArith Qminmax Qabs Lqa Lia Bool PeanoNat List.
Import ListNotations.
Open Scope Q_scope.

(* ================================================================== *)
(** ** Exceptions and the error monad *)

(** The two Python exceptions the modelled lines can raise. *)
Inductive exn : Type :=
| ValueError   (* numpy / scipy: shapes not aligned *)
| TypeError.   (* formatting [None] with [:.2f] *)

Definition result (A : Type) : Type := (exn + A)%type.

Definition ret {A : Type} (a : A) : result A := inr a.
Definition raise {A : Type} (e : exn) : result A := inl e.
Definition bind {A B : Type} (m : result A) (k : A -> result B) : result B :=
  match m with
  | inl e => inl e
  | inr a => k a
  end.

Notation "x <- m ;; k" := (bind m (fun x => k))
  (at level 61, m at next level, right associativity).

(* ================================================================== *)
(** ** The numpy operations the script uses *)

Module Np.

(** [sum] of a one-dimensional array. *)
Fixpoint sum (a : list Q) : Q :=
  match a with
  | [] => 0
  | v :: a' => v + sum a'
  end.

(** Element-wise product of two arrays of the same length. *)
Fixpoint zip_mul (a b : list Q) : list Q :=
  match a, b with
  | v :: a', w :: b' => v * w :: zip_mul a' b'
  | _, _ => []
  end.

(** Inner product, meaningful when the lengths agree. *)
Definition inner (a b : list Q) : Q := sum (zip_mul a b).

(** [np.ones((1, n))]: a single row of [n] ones. *)
Definition ones_row (n : nat) : list (list Q) := [repeat 1 n].

(** [np.dot(a, b)] on one-dimensional arrays: the inner product, and
    [ValueError] ("shapes not aligned") when the lengths differ. *)
Definition dot (a b : list Q) : result Q :=
  if (length a =? length b)%nat then ret (inner a b) else raise ValueError.

(** [a * b] on one-dimensional arrays, with numpy broadcasting: equal
    lengths multiply element-wise, a length-one operand is stretched, and
    anything else is a [ValueError]. *)
Definition mul (a b : list Q) : result (list Q) :=
  if (length a =? length b)%nat then ret (zip_mul a b)
  else match a, b with
       | [s], _ => ret (map (fun w => s * w) b)
       | _, [s] => ret (map (fun v => v * s) a)
       | _, _ => raise ValueError
       end.

(** [a / k] for an array and a scalar. *)
Definition div_scalar (a : list Q) (k : Q) : list Q := map (fun v => v / k) a.

End Np.

(* ================================================================== *)
(** ** The interface of [scipy.optimize.linprog] *)

(** The fields of [OptimizeResult] the script can observe, plus [status]
    (0 optimal, 1 iteration limit, 2 infeasible, 3 unbounded, 4 numerical
    difficulties).  [x] and [fun] are [None] when no solution was found. *)
Record OptimizeResult : Type := mkResult {
  x : option (list Q);
  fun_ : option Q;
  success : bool;
  status : Z
}.

(** [linprog(c, A_eq=A_eq, b_eq=b_eq, bounds=bounds, method='highs')]. *)
Definition linprog_t : Type :=
  list Q -> list (list Q) -> list Q -> list (Q * Q) -> result OptimizeResult.

(** A value within its [(lower, upper)] pair. *)
Definition in_bound (bd : Q * Q) (v : Q) : Prop := fst bd <= v /\ v <= snd bd.

(** [y] satisfies the equality rows and the box of the posed problem. *)
Definition lp_feasible (c : list Q) (A_eq : list (list Q)) (b_eq : list Q)
    (bounds : list (Q * Q)) (y : list Q) : Prop :=
  length y = length c /\
  Forall2 (fun row rhs => Np.inner row y == rhs) A_eq b_eq /\
  Forall2 in_bound bounds y.

(** [y] is feasible and no feasible vector has a smaller objective. *)
Definition lp_optimal (c : list Q) (A_eq : list (list Q)) (b_eq : list Q)
    (bounds : list (Q * Q)) (y : list Q) : Prop :=
  lp_feasible c A_eq b_eq bounds y /\
  forall z, lp_feasible c A_eq b_eq bounds z -> Np.inner c y <= Np.inner c z.

(** Array shapes [linprog] accepts. *)
Definition well_shaped (c : list Q) (A_eq : list (list Q)) (b_eq : list Q)
    (bounds : list (Q * Q)) : Prop :=
  Forall (fun row => length row = length c) A_eq /\
  length b_eq = length A_eq /\
  length bounds = length c.

(** What the program relies on from the solver:
    - [linprog_shape]: a row of [A_eq] whose width is not the size of [c]
      is rejected with [ValueError];
    - [linprog_returns]: well-shaped input yields a result object;
    - [linprog_sound]: [success] comes with an optimal [x] and its
      objective value [fun];
    - [linprog_complete]: on a one-row "proportions sum to one" problem
      with a non-empty feasible box the solver does report success. *)
Record linprog_contract (linprog : linprog_t) : Prop := {
  linprog_shape : forall c A_eq b_eq bounds,
    Exists (fun row => length row <> length c) A_eq ->
    linprog c A_eq b_eq bounds = inl ValueError;
  linprog_returns : forall c A_eq b_eq bounds,
    well_shaped c A_eq b_eq bounds ->
    exists res, linprog c A_eq b_eq bounds = inr res;
  linprog_sound : forall c A_eq b_eq bounds res,
    linprog c A_eq b_eq bounds = inr res ->
    success res = true ->
    exists xs f,
      x res = Some xs /\ fun_ res = Some f /\
      lp_optimal c A_eq b_eq bounds xs /\ f == Np.inner c xs;
  linprog_complete : forall c bounds res,
    linprog c (Np.ones_row (length c)) [1] bounds = inr res ->
    (exists y, lp_feasible c (Np.ones_row (length c)) [1] bounds y) ->
    success res = true
}.

(* ================================================================== *)
(** ** The script *)

(** Values of the sidebar widgets: one price and one pair of percentage
    limits per material (the widgets are created in loops over
    [materials], keyed by position), and the two quality sliders. *)
Record Sidebar : Type := mkSidebar {
  price : nat -> Q;
  min_r : nat -> Q;
  max_r : nat -> Q;
  strength_target : Q;
  fineness_target : Q
}.

(** The numbers behind the three metrics and the two pie charts. *)
Record Comparison : Type := mkComparison {
  current_cost : Q;
  min_cost : Q;
  savings : Q;
  current_cost_breakdown : list Q;
  optimal_cost_breakdown : list Q
}.

(** The text of the error box (line 105). *)
Definition failure_message : string := "优化失败！请调整约束条件".

(** What the page shows below the header. *)
Inductive Page : Type :=
| st_error (msg : string)
| st_results (optimal_ratios : list Q) (cmp : Comparison).

Section Script.

Variable linprog : linprog_t.

(** Module-level globals read by the functions below. *)
Variable materials : list string.
Variable ratios_july : list Q.

(** Lines 77-94.  [zip] stops at the shorter list, as [combine] does. *)
Definition optimize_cost (prices min_ratios max_ratios : list Q)
  : result (option (list Q) * option Q) :=
  let c := prices in
  let A_eq := Np.ones_row (length materials) in
  let b_eq := [1] in
  let bounds := combine min_ratios max_ratios in
  res <- linprog c A_eq b_eq bounds ;;
  if success res then ret (x res, fun_ res) else ret (None, None).

(** Lines 97-98. *)
Definition calculate_cost (ratios prices : list Q) : result Q :=
  Np.dot ratios prices.

(** Lines 108-116, 137 and 138, in the order the script runs them: the
    reference cost, the metrics (formatting [min_cost] with [:.2f] is a
    [TypeError] when it is [None]), and the two cost breakdowns. *)
Definition compare (optimal_ratios : list Q) (min_cost : option Q)
    (prices : list Q) : result Comparison :=
  current_cost <- calculate_cost (Np.div_scalar ratios_july 100) prices ;;
  min_cost <- match min_cost with
              | Some m => ret m
              | None => raise TypeError
              end ;;
  current_cost_breakdown <- Np.mul (Np.div_scalar ratios_july 100) prices ;;
  optimal_cost_breakdown <- Np.mul optimal_ratios prices ;;
  ret (mkComparison current_cost min_cost (current_cost - min_cost)
         current_cost_breakdown optimal_cost_breakdown).

(** Lines 40-47. *)
Definition prices_of (ui : Sidebar) : list Q :=
  map (price ui) (seq 0 (length materials)).

(** Lines 50-69: the limits are entered in percent. *)
Definition min_ratios_of (ui : Sidebar) : list Q :=
  map (fun i => min_r ui i / 100) (seq 0 (length materials)).

Definition max_ratios_of (ui : Sidebar) : list Q :=
  map (fun i => max_r ui i / 100) (seq 0 (length materials)).

(** Lines 101-157, without the drawing calls. *)
Definition page (ui : Sidebar) : result Page :=
  let prices := prices_of ui in
  r <- optimize_cost prices (min_ratios_of ui) (max_ratios_of ui) ;;
  match r with
  | (None, _) => ret (st_error failure_message)
  | (Some optimal_ratios, min_cost) =>
      cmp <- compare optimal_ratios min_cost prices ;;
      ret (st_results optimal_ratios cmp)
  end.

End Script.

(** The data shipped with the script (lines 29-31). *)
Module Shipped.

Definition materials : list string :=
  ["熟料"; "粉煤灰"; "石灰石"; "火山灰"; "燃煤炉渣"; "磷石膏"; "矿粉"]%string.

Definition prices_july : list Q :=
  [22560 # 100; 1907 # 100; 3931 # 100; 3446 # 100; 1451 # 100; 9 # 100;
   10806 # 100].

Definition ratios_july : list Q :=
  [4410 # 100; 2270 # 100; 1180 # 100; 0; 730 # 100; 500 # 100; 910 # 100].

(** The widgets as they first appear (lines 43, 56, 63, 73 and 74):
    the July prices, the July recipe give or take five points, clipped
    to [0, 100], and the two sliders at 15 and 20. *)
Definition initial : Sidebar :=
  mkSidebar (fun i => nth i prices_july 0)
    (fun i => Qmax 0 (nth i ratios_july 0 - 5))
    (fun i => Qmin 100 (nth i ratios_july 0 + 5))
    15 20.

End Shipped.

(** Inputs the blend problem is stated for: one price and one pair of
    limits per material, at least one material, prices not negative and
    every lower limit at most its upper limit. *)
Record well_formed (materials : list string)
    (prices min_ratios max_ratios : list Q) : Prop := {
  wf_nonempty : (1 <= length materials)%nat;
  wf_prices : length prices = length materials;
  wf_mins : length min_ratios = length materials;
  wf_maxs : length max_ratios = length materials;
  wf_nonneg : Forall (fun p => 0 <= p) prices;
  wf_ordered : Forall2 Qle min_ratios max_ratios
}.

(** [y] lies in the box built by [zip(min_ratios, max_ratios)] and is a
    complete blend. *)
Definition feasible_blend (min_ratios max_ratios y : list Q) : Prop :=
  Forall2 in_bound (combine min_ratios max_ratios) y /\ Np.sum y == 1.

(** Every lower limit is at most its upper limit. *)
Definition ordered_box (bounds : list (Q * Q)) : Prop :=
  Forall (fun bd => fst bd <= snd bd) bounds.

(** The two outcomes of [optimize_cost]. *)
Definition Infeasible : result (option (list Q) * option Q) := inr (None, None).

Definition Success (xs : list Q) (cost : Q) : result (option (list Q) * option Q) :=
  inr (Some xs, Some cost).

(* ================================================================== *)
(** ** An exact solver for the blend problem *)

(** The solver below is not the algorithm behind [method='highs']; it is a
    small exact solver for linear programs with a single "total" row and a
    box, written to show that [linprog_contract] can be met and to run the
    script on concrete inputs.  It looks for a threshold price [lam] among
    the entries of [c]: everything cheaper goes to its upper limit,
    everything dearer to its lower limit, and the materials priced [lam]
    take up the rest. *)
Module ExactLP.

(** Least total of a blend that puts every material cheaper than [lam]
    at its upper limit and every other material at its lower limit. *)
Fixpoint lo_sum (lam : Q) (c : list Q) (bounds : list (Q * Q)) : Q :=
  match c, bounds with
  | ci :: c', (l, u) :: bounds' =>
      (if Qlt_le_dec ci lam then u else l) + lo_sum lam c' bounds'
  | _, _ => 0
  end.

(** Largest total when the materials priced exactly [lam] may also go up
    to their upper limit. *)
Fixpoint hi_sum (lam : Q) (c : list Q) (bounds : list (Q * Q)) : Q :=
  match c, bounds with
  | ci :: c', (l, u) :: bounds' =>
      (if Qlt_le_dec lam ci then l else u) + hi_sum lam c' bounds'
  | _, _ => 0
  end.

(** The smaller of the room left in a material and the amount left. *)
Definition take (room r : Q) : Q := if Qlt_le_dec r room then r else room.

(** The blend for threshold price [lam]: cheaper materials at their upper
    limit, dearer ones at their lower limit, and the amount [r] spread
    over the materials priced [lam], first come first served. *)
Fixpoint fill (lam r : Q) (c : list Q) (bounds : list (Q * Q)) : list Q :=
  match c, bounds with
  | ci :: c', (l, u) :: bounds' =>
      if Qlt_le_dec ci lam then u :: fill lam r c' bounds'
      else if Qlt_le_dec lam ci then l :: fill lam r c' bounds'
      else let d := take (u - l) r in
           (l + d) :: fill lam (r - d) c' bounds'
  | _, _ => []
  end.

(** A price of the list whose threshold blend can total [t]. *)
Definition threshold (t : Q) (c : list Q) (bounds : list (Q * Q)) : option Q :=
  find (fun lam => Qle_bool (lo_sum lam c bounds) t &&
                   Qle_bool t (hi_sum lam c bounds)) c.

Definition ordered (bounds : list (Q * Q)) : bool :=
  forallb (fun bd => Qle_bool (fst bd) (snd bd)) bounds.

Definition failed (code : Z) : OptimizeResult := mkResult None None false code.

(** minimise [c . x] subject to [sum x = t] within [bounds]. *)
Definition blend (c : list Q) (t : Q) (bounds : list (Q * Q)) : OptimizeResult :=
  if ordered bounds then
    match threshold t c bounds with
    | Some lam =>
        let xs := fill lam (t - lo_sum lam c bounds) c bounds in
        mkResult (Some xs) (Some (Np.inner c xs)) true 0
    | None => failed 2
    end
  else failed 2.

(** The solver: input validation, then [blend] for a single row of ones;
    other equality systems are reported as not solved (status 4). *)
Definition linprog : linprog_t := fun c A_eq b_eq bounds =>
  if forallb (fun row => (length row =? length c)%nat) A_eq then
    if (length bounds =? length c)%nat then
      match A_eq, b_eq with
      | [row], [t] =>
          if forallb (Qeq_bool 1) row then ret (blend c t bounds)
          else ret (failed 4)
      | _, _ => ret (failed 4)
      end
    else raise ValueError
  else raise ValueError.

(** The prices above [lam]; their number is the measure of the search
    for a threshold in the completeness proof. *)
Definition dearer (lam : Q) (c : list Q) : list Q :=
  filter (fun ci => if Qlt_le_dec lam ci then true else false) c.

(** A solver that always stops at its iteration limit (status 1). *)
Definition gives_up : linprog_t := fun _ _ _ _ => ret (failed 1).

End ExactLP.

(* ================================================================== *)
(** ** The widgets and the displayed percentages *)

(** The ranges the number inputs enforce (lines 42-46 and 55-67): a price
    is not negative, a limit lies between 0 and 100. *)
Definition in_range (materials : list string) (ui : Sidebar) : Prop :=
  forall i, (i < length materials)%nat ->
    0 <= price ui i /\
    (0 <= min_r ui i /\ min_r ui i <= 100) /\
    (0 <= max_r ui i /\ max_r ui i <= 100).

(** The total of one widget column over the materials. *)
Definition percent_total (f : nat -> Q) (materials : list string) : Q :=
  Np.sum (map f (seq 0 (length materials))).

(** The typed limits leave room for a blend: no minimum above its maximum,
    the minima total at most 100 % and the maxima at least 100 %. *)
Definition limits_ok (materials : list string) (ui : Sidebar) : Prop :=
  (forall i, (i < length materials)%nat -> min_r ui i <= max_r ui i) /\
  percent_total (min_r ui) materials <= 100 /\
  100 <= percent_total (max_r ui) materials.

(** [optimal_ratios*100] (lines 124 and 154). *)
Definition as_percent (ratios : list Q) : list Q :=
  map (fun v => v * 100) ratios.

(** The values the widgets start with, for any price list and recipe
    (lines 43, 56, 63, 73 and 74).  [prices_july[i]] and [ratios_july[i]]
    are read for the positions of [materials] only; both lists must be at
    least that long, Python raises [IndexError] otherwise. *)
Definition initial_sidebar (prices_july ratios_july : list Q) : Sidebar :=
  mkSidebar (fun i => nth i prices_july 0)
    (fun i => Qmax 0 (nth i ratios_july 0 - 5))
    (fun i => Qmin 100 (nth i ratios_july 0 + 5))
    15 20.

(* ================================================================== *)
(** ** Sums, inner products and boxes *)

Lemma inner_cons (a b : Q) (u v : list Q) :
  Np.inner (a :: u) (b :: v) = a * b + Np.inner u v.
Proof. reflexivity. Qed.

Lemma inner_ones (row y : list Q) :
  Forall (fun a => a == 1) row -> length row = length y ->
  Np.inner row y == Np.sum y.
Proof.
  intros Hrow; revert y.
  induction Hrow as [|a row Ha _ IH]; intros [|v y] Hlen; simpl in *;
    try discriminate.
  - reflexivity.
  - rewrite inner_cons, IH by lia. rewrite Ha. ring.
Qed.

Lemma inner_comm (u v : list Q) : Np.inner u v == Np.inner v u.
Proof.
  revert v. induction u as [|a u IH]; intros [|b v]; try reflexivity.
  rewrite !inner_cons, IH. ring.
Qed.

Lemma repeat_ones (n : nat) : Forall (fun a => a == 1) (repeat 1 n).
Proof. induction n; simpl; constructor; [reflexivity | assumption]. Qed.

Lemma map_fst_zip (mins maxs : list Q) :
  length mins = length maxs -> map fst (combine mins maxs) = mins.
Proof.
  revert maxs; induction mins as [|a mins IH]; intros [|b maxs] H; simpl in *;
    try discriminate; [reflexivity | f_equal; apply IH; lia].
Qed.

Lemma map_snd_zip (mins maxs : list Q) :
  length mins = length maxs -> map snd (combine mins maxs) = maxs.
Proof.
  revert maxs; induction mins as [|a mins IH]; intros [|b maxs] H; simpl in *;
    try discriminate; [reflexivity | f_equal; apply IH; lia].
Qed.

Lemma zip_ordered (mins maxs : list Q) :
  Forall2 Qle mins maxs -> ordered_box (combine mins maxs).
Proof. induction 1; simpl; constructor; assumption. Qed.

Lemma box_ordered (bounds : list (Q * Q)) (y : list Q) :
  Forall2 in_bound bounds y -> ordered_box bounds.
Proof.
  induction 1 as [|bd v bounds y [Hl Hu] _ IH]; constructor;
    [lra | assumption].
Qed.

(** A vector inside a box totals between the totals of the two corners. *)
Lemma box_sum (bounds : list (Q * Q)) (y : list Q) :
  Forall2 in_bound bounds y ->
  Np.sum (map fst bounds) <= Np.sum y /\ Np.sum y <= Np.sum (map snd bounds).
Proof.
  induction 1 as [|bd v bounds y [Hl Hu] _ [IHl IHu]]; simpl; split; lra.
Qed.

(* ================================================================== *)
(** ** Correctness of the exact solver *)

Module ExactLPFacts.
Import ExactLP.

Lemma ordered_spec (bounds : list (Q * Q)) :
  ordered bounds = true <-> ordered_box bounds.
Proof.
  unfold ordered, ordered_box. rewrite forallb_forall, Forall_forall.
  split; intros H bd Hin; apply Qle_bool_iff, H, Hin.
Qed.

Lemma take_spec (room r : Q) :
  0 <= room -> 0 <= r ->
  0 <= take room r /\ take room r <= room /\ take room r <= r /\
  (take room r == r \/ take room r == room).
Proof.
  intros Hroom Hr. unfold take.
  destruct (Qlt_le_dec r room); repeat split; try lra;
    ((left; reflexivity) || (right; reflexivity)).
Qed.

Lemma lo_le_hi (lam : Q) (c : list Q) (bounds : list (Q * Q)) :
  ordered_box bounds -> lo_sum lam c bounds <= hi_sum lam c bounds.
Proof.
  intros Hord; revert c.
  induction Hord as [|[l u] bounds Hlu _ IH]; intros [|ci c]; simpl in *;
    try lra.
  specialize (IH c).
  destruct (Qlt_le_dec ci lam), (Qlt_le_dec lam ci); lra.
Qed.

Lemma fill_length (lam : Q) (c : list Q) :
  forall (bounds : list (Q * Q)) (r : Q),
    length bounds = length c -> length (fill lam r c bounds) = length c.
Proof.
  induction c as [|ci c IH]; intros [|[l u] bounds] r Hlen; simpl in *;
    try discriminate; try reflexivity.
  destruct (Qlt_le_dec ci lam); [|destruct (Qlt_le_dec lam ci)]; simpl;
    f_equal; apply IH; lia.
Qed.

Lemma fill_in_box (lam : Q) (c : list Q) :
  forall (bounds : list (Q * Q)) (r : Q),
    length bounds = length c -> ordered_box bounds -> 0 <= r ->
    Forall2 in_bound bounds (fill lam r c bounds).
Proof.
  induction c as [|ci c IH]; intros [|[l u] bounds] r Hlen Hord Hr;
    simpl in *; try discriminate; try constructor.
  inversion Hord as [|bd bs Hlu Hord']; subst; simpl in Hlu.
  destruct (take_spec (u - l) r) as (T0 & T1 & T2 & _); try lra.
  destruct (Qlt_le_dec ci lam); [|destruct (Qlt_le_dec lam ci)];
    constructor; try (apply IH; (lia || assumption || lra));
    split; simpl; lra.
Qed.

Lemma fill_sum (lam : Q) (c : list Q) :
  forall (bounds : list (Q * Q)) (r : Q),
    ordered_box bounds -> 0 <= r ->
    r <= hi_sum lam c bounds - lo_sum lam c bounds ->
    Np.sum (fill lam r c bounds) == lo_sum lam c bounds + r.
Proof.
  induction c as [|ci c IH]; intros [|[l u] bounds] r Hord Hr Hcap;
    simpl in *; try lra.
  inversion Hord as [|bd bs Hlu Hord']; subst; simpl in Hlu.
  pose proof (lo_le_hi lam c bounds Hord') as Hgap.
  destruct (take_spec (u - l) r) as (T0 & T1 & T2 & T3); try lra.
  destruct (Qlt_le_dec ci lam) as [Hlt|Hge].
  - destruct (Qlt_le_dec lam ci); try lra.
    simpl. rewrite IH; (assumption || lra).
  - destruct (Qlt_le_dec lam ci) as [Hgt|Hle].
    + simpl. rewrite IH; (assumption || lra).
    + simpl. rewrite IH; try assumption; lra.
Qed.

(** The threshold price certifies the blend: against any vector of the
    box, the objective changes by at least [lam] times the change of the
    total. *)
Lemma fill_certificate (lam : Q) (c : list Q) :
  forall (bounds : list (Q * Q)) (r : Q) (y : list Q),
    length bounds = length c -> 0 <= r ->
    Forall2 in_bound bounds y ->
    lam * (Np.sum y - Np.sum (fill lam r c bounds))
      <= Np.inner c y - Np.inner c (fill lam r c bounds).
Proof.
  induction c as [|ci c IH]; intros [|[l u] bounds] r y Hlen Hr Hy;
    simpl in *; try discriminate.
  - inversion Hy; subst. unfold Np.inner; simpl. lra.
  - inversion Hy as [|bd v bs y' [Hl Hu] Hy']; subst; simpl in Hl, Hu.
    destruct (take_spec (u - l) r) as (T0 & T1 & T2 & _); try lra.
    destruct (Qlt_le_dec ci lam) as [Hlt|Hge];
      [|destruct (Qlt_le_dec lam ci) as [Hgt|Hle]];
      rewrite inner_cons; simpl.
    + specialize (IH bounds r y' ltac:(lia) Hr Hy').
      rewrite inner_cons. nra.
    + specialize (IH bounds r y' ltac:(lia) Hr Hy').
      rewrite inner_cons. nra.
    + specialize (IH bounds (r - take (u - l) r) y' ltac:(lia)
                    ltac:(lra) Hy').
      rewrite inner_cons.
      assert (Heq : ci == lam) by lra.
      rewrite Heq. lra.
Qed.

(** *** A threshold price exists whenever the box admits the total *)

Lemma lo_sum_floor (lam : Q) (c : list Q) :
  forall bounds : list (Q * Q),
    length bounds = length c -> (forall ci, In ci c -> lam <= ci) ->
    lo_sum lam c bounds == Np.sum (map fst bounds).
Proof.
  induction c as [|ci c IH]; intros [|[l u] bounds] Hlen Hall; simpl in *;
    try discriminate; try reflexivity.
  pose proof (Hall ci (or_introl eq_refl)) as Hci.
  destruct (Qlt_le_dec ci lam); try lra.
  rewrite IH; [reflexivity | lia | auto].
Qed.

Lemma hi_sum_ceiling (lam : Q) (c : list Q) :
  forall bounds : list (Q * Q),
    length bounds = length c -> (forall ci, In ci c -> ci <= lam) ->
    hi_sum lam c bounds == Np.sum (map snd bounds).
Proof.
  induction c as [|ci c IH]; intros [|[l u] bounds] Hlen Hall; simpl in *;
    try discriminate; try reflexivity.
  pose proof (Hall ci (or_introl eq_refl)) as Hci.
  destruct (Qlt_le_dec lam ci); try lra.
  rewrite IH; [reflexivity | lia | auto].
Qed.

(** Moving the threshold from [lam] to the next price [mu] starts where
    [lam] ended. *)
Lemma lo_sum_next (lam mu : Q) (c : list Q) :
  forall bounds : list (Q * Q),
    (forall ci, In ci c -> (ci < mu <-> ci <= lam)) ->
    lo_sum mu c bounds == hi_sum lam c bounds.
Proof.
  induction c as [|ci c IH]; intros [|[l u] bounds] Hall; simpl in *;
    try reflexivity.
  pose proof (Hall ci (or_introl eq_refl)) as [H1 H2].
  rewrite IH by auto.
  destruct (Qlt_le_dec ci mu) as [Hlt|Hge], (Qlt_le_dec lam ci) as [Hgt|Hle];
    try reflexivity.
  - specialize (H1 Hlt). lra.
  - specialize (H2 Hle). lra.
Qed.

Lemma least (l : list Q) :
  l <> [] -> exists m, In m l /\ forall v, In v l -> m <= v.
Proof.
  induction l as [|a l IH]; [congruence | intros _].
  destruct l as [|b l].
  - exists a; split; [left; reflexivity | intros v [<-|[]]; lra].
  - destruct IH as (m & Hin & Hmin); [discriminate |].
    destruct (Qlt_le_dec a m) as [Ham|Hma].
    + exists a; split; [left; reflexivity |].
      intros v [<-|Hv]; [lra | specialize (Hmin v Hv); lra].
    + exists m; split; [right; assumption |].
      intros v [<-|Hv]; [lra | auto].
Qed.

Lemma dearer_In (lam v : Q) (c : list Q) :
  In v (dearer lam c) <-> In v c /\ lam < v.
Proof.
  unfold dearer. rewrite filter_In.
  destruct (Qlt_le_dec lam v); split; intros [H1 H2]; split;
    try assumption; try reflexivity; try discriminate; lra.
Qed.

Lemma dearer_shrinks (lam mu : Q) (c : list Q) :
  In mu c -> lam < mu ->
  (length (dearer mu c) < length (dearer lam c))%nat.
Proof.
  intros Hin Hlt.
  assert (Hle : forall c', (length (dearer mu c') <= length (dearer lam c'))%nat).
  { induction c' as [|ci c' IH]; simpl; [lia |].
    destruct (Qlt_le_dec mu ci), (Qlt_le_dec lam ci); simpl; try lia; lra. }
  induction c as [|ci c IH]; simpl in *; [contradiction |].
  destruct Hin as [->|Hin].
  - destruct (Qlt_le_dec mu mu), (Qlt_le_dec lam mu); simpl; try lra.
    specialize (Hle c). lia.
  - specialize (IH Hin).
    destruct (Qlt_le_dec mu ci), (Qlt_le_dec lam ci); simpl; try lia; lra.
Qed.

Lemma threshold_search (t : Q) (c : list Q) (bounds : list (Q * Q)) :
  length bounds = length c -> t <= Np.sum (map snd bounds) ->
  forall (n : nat) (lam : Q),
    (length (dearer lam c) < n)%nat -> In lam c ->
    lo_sum lam c bounds <= t ->
    exists mu, In mu c /\ lo_sum mu c bounds <= t /\ t <= hi_sum mu c bounds.
Proof.
  intros Hlen Htop.
  induction n as [|n IH]; intros lam Hn Hin Hlo; [lia |].
  destruct (Qlt_le_dec (hi_sum lam c bounds) t) as [Hshort|Hok];
    [| exists lam; auto].
  destruct (dearer lam c) as [|d ds] eqn:Hd.
  - exfalso.
    assert (Hall : forall ci, In ci c -> ci <= lam).
    { intros ci Hci. destruct (Qlt_le_dec lam ci) as [Hgt|]; [| assumption].
      assert (Hmem : In ci (dearer lam c)) by (apply dearer_In; auto).
      rewrite Hd in Hmem. destruct Hmem. }
    rewrite (hi_sum_ceiling lam c bounds Hlen Hall) in Hshort. lra.
  - destruct (least (d :: ds)) as (mu & Hmu & Hmin); [discriminate |].
    rewrite <- Hd in Hmu, Hmin.
    apply dearer_In in Hmu as [Hmu_in Hmu_gt].
    apply (IH mu).
    + pose proof (dearer_shrinks lam mu c Hmu_in Hmu_gt) as Hless.
      rewrite Hd in Hless. lia.
    + assumption.
    + rewrite (lo_sum_next lam mu c bounds); [lra |].
      intros ci Hci; split; intros H.
      * destruct (Qlt_le_dec lam ci) as [Hgt|]; [| assumption].
        assert (Hmem : In ci (dearer lam c)) by (apply dearer_In; auto).
        specialize (Hmin ci Hmem). lra.
      * lra.
Qed.

Lemma threshold_sound (t lam : Q) (c : list Q) (bounds : list (Q * Q)) :
  threshold t c bounds = Some lam ->
  lo_sum lam c bounds <= t /\ t <= hi_sum lam c bounds.
Proof.
  unfold threshold. intros H. apply find_some in H as [_ H].
  apply andb_true_iff in H as [H1 H2].
  split; apply Qle_bool_iff; assumption.
Qed.

Lemma threshold_complete (t : Q) (c : list Q) (bounds : list (Q * Q)) :
  c <> [] -> length bounds = length c ->
  Np.sum (map fst bounds) <= t -> t <= Np.sum (map snd bounds) ->
  exists lam, threshold t c bounds = Some lam.
Proof.
  intros Hne Hlen Hbot Htop.
  destruct (least c Hne) as (m & Hm & Hmin).
  destruct (threshold_search t c bounds Hlen Htop
              (S (length (dearer m c))) m) as (mu & Hmu & Hlo & Hhi);
    [lia | assumption | rewrite lo_sum_floor; auto |].
  destruct (threshold t c bounds) as [lam|] eqn:Hfind; [eauto |].
  unfold threshold in Hfind.
  pose proof (find_none _ _ Hfind mu Hmu) as Hno. simpl in Hno.
  apply Qle_bool_iff in Hlo, Hhi. rewrite Hlo, Hhi in Hno. discriminate.
Qed.

(** *** The blend solver and the contract *)

Lemma blend_sound (c : list Q) (t : Q) (bounds : list (Q * Q)) :
  length bounds = length c -> success (blend c t bounds) = true ->
  exists xs,
    x (blend c t bounds) = Some xs /\
    fun_ (blend c t bounds) = Some (Np.inner c xs) /\
    length xs = length c /\ Forall2 in_bound bounds xs /\
    Np.sum xs == t /\
    forall y, Forall2 in_bound bounds y -> Np.sum y == t ->
              Np.inner c xs <= Np.inner c y.
Proof.
  intros Hlen. unfold blend.
  destruct (ordered bounds) eqn:Hord; [| discriminate].
  destruct (threshold t c bounds) as [lam|] eqn:Hth; [| discriminate].
  intros _. apply ordered_spec in Hord.
  apply threshold_sound in Hth as [Hlo Hhi].
  set (r := t - lo_sum lam c bounds).
  assert (Hr : 0 <= r) by (unfold r; lra).
  assert (Hsum : Np.sum (fill lam r c bounds) == t).
  { rewrite fill_sum; unfold r; (assumption || lra). }
  exists (fill lam r c bounds); simpl. repeat split.
  - apply fill_length, Hlen.
  - apply fill_in_box; assumption.
  - exact Hsum.
  - intros y Hy Hty.
    pose proof (fill_certificate lam c bounds r y Hlen Hr Hy) as Hcert.
    assert (Hz : Np.sum y - Np.sum (fill lam r c bounds) == 0) by lra.
    rewrite Hz in Hcert. lra.
Qed.

Lemma blend_complete (c : list Q) (t : Q) (bounds : list (Q * Q)) (y : list Q) :
  c <> [] -> length bounds = length c ->
  Forall2 in_bound bounds y -> Np.sum y == t ->
  success (blend c t bounds) = true.
Proof.
  intros Hne Hlen Hy Hty.
  pose proof (box_ordered bounds y Hy) as Hord.
  destruct (box_sum bounds y Hy) as [Hbot Htop].
  destruct (threshold_complete t c bounds Hne Hlen) as [lam Hth]; try lra.
  apply ordered_spec in Hord.
  unfold blend. rewrite Hord, Hth. reflexivity.
Qed.

Lemma all_ones (row : list Q) :
  forallb (Qeq_bool 1) row = true -> Forall (fun a => a == 1) row.
Proof.
  rewrite forallb_forall, Forall_forall. intros H a Ha.
  symmetry. apply Qeq_bool_iff, H, Ha.
Qed.

Lemma widths_ok (c : list Q) (A_eq : list (list Q)) :
  forallb (fun row => (length row =? length c)%nat) A_eq = true <->
  Forall (fun row => length row = length c) A_eq.
Proof.
  rewrite forallb_forall, Forall_forall.
  split; intros H row Hrow; apply Nat.eqb_eq, H, Hrow.
Qed.

(** The exact solver meets everything the program relies on. *)
Theorem meets_contract : linprog_contract ExactLP.linprog.
Proof.
  constructor.
  - (* shape *)
    intros c A_eq b_eq bounds Hbad. unfold linprog.
    destruct (forallb _ A_eq) eqn:Hw; [| reflexivity].
    apply widths_ok in Hw. apply Exists_exists in Hbad as (row & Hin & Hrow).
    rewrite Forall_forall in Hw. elim Hrow. auto.
  - (* returns *)
    intros c A_eq b_eq bounds (Hw & _ & Hb). unfold linprog.
    apply widths_ok in Hw. rewrite Hw.
    apply Nat.eqb_eq in Hb. rewrite Hb.
    destruct A_eq as [|row [|]], b_eq as [|t [|]];
      try destruct (forallb (Qeq_bool 1) row); eexists; reflexivity.
  - (* sound *)
    intros c A_eq b_eq bounds res. unfold linprog.
    destruct (forallb _ A_eq) eqn:Hw; [| discriminate].
    destruct (length bounds =? length c)%nat eqn:Hb; [| discriminate].
    apply Nat.eqb_eq in Hb.
    destruct A_eq as [|row [|]], b_eq as [|t [|]];
      try (intros [= <-]; discriminate).
    destruct (forallb (Qeq_bool 1) row) eqn:Hones;
      [| intros [= <-]; discriminate].
    intros [= <-] Hok.
    apply widths_ok in Hw. inversion Hw as [|? ? Hrow _]; subst.
    apply all_ones in Hones.
    destruct (blend_sound c t bounds Hb Hok)
      as (xs & Hx & Hf & Hlen & Hbox & Hsum & Hopt).
    exists xs, (Np.inner c xs). repeat split; try assumption.
    + constructor; [| constructor].
      rewrite inner_ones; (assumption || congruence).
    + intros z (Hzlen & Hrows & Hzbox). apply Hopt; [assumption |].
      inversion Hrows as [|? ? ? ? Hz _]; subst.
      rewrite <- Hz. symmetry. apply inner_ones; (assumption || congruence).
  - (* complete *)
    intros c bounds res. unfold linprog, Np.ones_row. simpl forallb.
    rewrite repeat_length, Nat.eqb_refl. simpl.
    destruct (length bounds =? length c)%nat eqn:Hb; [| discriminate].
    apply Nat.eqb_eq in Hb.
    assert (Hones : forallb (Qeq_bool 1) (repeat 1 (length c)) = true).
    { apply forallb_forall. intros a Ha. apply repeat_spec in Ha. subst.
      reflexivity. }
    rewrite Hones. intros [= <-] (y & Hylen & Hrows & Hbox).
    inversion Hrows as [|? ? ? ? Hy _]; subst.
    rewrite inner_ones in Hy
      by (try apply repeat_ones; rewrite repeat_length; congruence).
    apply (blend_complete c 1 bounds y); try assumption.
    intros ->. destruct y; [| discriminate]. simpl in Hy. lra.
Qed.

End ExactLPFacts.

(* ================================================================== *)
(** ** The program under the solver contract *)

Lemma lp_feasible_blend (n : nat) (c min_ratios max_ratios y : list Q) :
  n = length c ->
  lp_feasible c (Np.ones_row n) [1] (combine min_ratios max_ratios) y <->
  length y = length c /\ feasible_blend min_ratios max_ratios y.
Proof.
  intros ->. unfold lp_feasible, feasible_blend, Np.ones_row. split.
  - intros (Hlen & Hrows & Hbox). inversion Hrows as [|? ? ? ? Hy _]; subst.
    rewrite inner_ones in Hy
      by (try apply repeat_ones; rewrite repeat_length; congruence).
    auto.
  - intros (Hlen & Hbox & Hy). repeat split; try assumption.
    constructor; [| constructor].
    rewrite inner_ones
      by (try apply repeat_ones; rewrite repeat_length; congruence).
    exact Hy.
Qed.

(** A box admits a complete blend exactly when its lower corner totals at
    most one and its upper corner at least one. *)
Lemma feasible_blend_iff (min_ratios max_ratios : list Q) :
  Forall2 Qle min_ratios max_ratios ->
  (exists y, feasible_blend min_ratios max_ratios y) <->
  Np.sum min_ratios <= 1 /\ 1 <= Np.sum max_ratios.
Proof.
  intros Hord.
  pose proof (Forall2_length Hord) as Hlen.
  set (bounds := combine min_ratios max_ratios).
  assert (Hfst : map fst bounds = min_ratios) by (apply map_fst_zip, Hlen).
  assert (Hsnd : map snd bounds = max_ratios) by (apply map_snd_zip, Hlen).
  split.
  - intros (y & Hbox & Hy). apply box_sum in Hbox. fold bounds in Hbox.
    rewrite Hfst, Hsnd in Hbox. lra.
  - intros [Hbot Htop].
    set (c := repeat 0 (length bounds)).
    assert (Hc : length bounds = length c)
      by (unfold c; rewrite repeat_length; reflexivity).
    assert (Hflat : forall ci, In ci c -> ci = 0)
      by (intros ci Hci; apply repeat_spec in Hci; exact Hci).
    assert (Hlo : ExactLP.lo_sum 0 c bounds == Np.sum min_ratios).
    { rewrite ExactLPFacts.lo_sum_floor, Hfst; try reflexivity; try assumption.
      intros ci Hci. rewrite (Hflat ci Hci). lra. }
    assert (Hhi : ExactLP.hi_sum 0 c bounds == Np.sum max_ratios).
    { rewrite ExactLPFacts.hi_sum_ceiling, Hsnd; try reflexivity;
        try assumption.
      intros ci Hci. rewrite (Hflat ci Hci). lra. }
    exists (ExactLP.fill 0 (1 - ExactLP.lo_sum 0 c bounds) c bounds). split.
    + apply ExactLPFacts.fill_in_box;
        [assumption | apply zip_ordered, Hord | lra].
    + rewrite ExactLPFacts.fill_sum; try lra. apply zip_ordered, Hord.
Qed.

Lemma feasible_blend_length (min_ratios max_ratios y z : list Q) :
  feasible_blend min_ratios max_ratios y ->
  feasible_blend min_ratios max_ratios z -> length y = length z.
Proof.
  intros [Hy _] [Hz _].
  apply Forall2_length in Hy, Hz. congruence.
Qed.

Section UnderContract.

Variable linprog : linprog_t.
Hypothesis contract : linprog_contract linprog.

Variable materials : list string.

Lemma success_inv (prices min_ratios max_ratios xs : list Q) (cost : Q) :
  optimize_cost linprog materials prices min_ratios max_ratios
    = Success xs cost ->
  exists res,
    linprog prices (Np.ones_row (length materials)) [1]
      (combine min_ratios max_ratios) = inr res /\
    success res = true /\ x res = Some xs /\ fun_ res = Some cost.
Proof.
  unfold optimize_cost, Success, bind, ret.
  destruct (linprog _ _ _ _) as [e|res]; [discriminate |].
  destruct (success res) eqn:Hok; intros [= Hx Hf]; eauto.
Qed.

(** What a successful call returns. *)
Lemma success_optimal (prices min_ratios max_ratios xs : list Q) (cost : Q) :
  optimize_cost linprog materials prices min_ratios max_ratios
    = Success xs cost ->
  length materials = length prices /\
  length xs = length prices /\
  feasible_blend min_ratios max_ratios xs /\
  (forall y, feasible_blend min_ratios max_ratios y ->
             Np.inner prices xs <= Np.inner prices y) /\
  cost == Np.inner prices xs.
Proof.
  intros H. destruct (success_inv _ _ _ _ _ H) as (res & Hres & Hok & Hx & Hf).
  assert (Hn : length materials = length prices).
  { destruct (Nat.eq_dec (length materials) (length prices)) as [|Hne];
      [assumption | exfalso].
    rewrite (linprog_shape _ contract) in Hres; [discriminate |].
    constructor. rewrite repeat_length. exact Hne. }
  destruct (linprog_sound _ contract _ _ _ _ _ Hres Hok)
    as (xs' & f & Hx' & Hf' & [Hfeas Hopt] & Hcost).
  assert (xs' = xs) by congruence. assert (f = cost) by congruence. subst.
  apply lp_feasible_blend in Hfeas as [Hlen Hblend]; [| assumption].
  repeat split; try assumption; try apply Hblend.
  intros y Hy. apply Hopt, lp_feasible_blend; [assumption |].
  split; [| assumption].
  rewrite (feasible_blend_length _ _ _ _ Hy Hblend). exact Hlen.
Qed.

(** On well-formed input the call returns one of its two outcomes, and
    which one is decided by the feasibility of the box. *)
Lemma outcome (prices min_ratios max_ratios : list Q) :
  well_formed materials prices min_ratios max_ratios ->
  ((exists y, feasible_blend min_ratios max_ratios y) /\
   exists xs cost,
     optimize_cost linprog materials prices min_ratios max_ratios
       = Success xs cost) \/
  (~ (exists y, feasible_blend min_ratios max_ratios y) /\
   optimize_cost linprog materials prices min_ratios max_ratios
     = Infeasible).
Proof.
  intros [Hne Hp Hmin Hmax _ Hord].
  assert (Hb : length (combine min_ratios max_ratios) = length prices).
  { rewrite length_combine. lia. }
  destruct (linprog_returns _ contract prices
              (Np.ones_row (length materials)) [1]
              (combine min_ratios max_ratios)) as [res Hres].
  { repeat split; try assumption.
    constructor; [| constructor]. rewrite repeat_length. congruence. }
  unfold optimize_cost, bind. rewrite Hres.
  destruct (success res) eqn:Hok.
  - left.
    destruct (linprog_sound _ contract _ _ _ _ _ Hres Hok)
      as (xs & f & Hx & Hf & [Hfeas _] & _).
    apply lp_feasible_blend in Hfeas as [_ Hblend]; [| congruence].
    split; [eauto |]. exists xs, f. rewrite Hx, Hf. reflexivity.
  - right. split; [| reflexivity].
    intros (y & Hy).
    assert (Hyes : success res = true); [| congruence].
    rewrite <- Hp in Hres.
    apply (linprog_complete _ contract _ _ _ Hres).
    exists y. apply lp_feasible_blend; [reflexivity |].
    split; [| assumption].
    destruct Hy as [Hbox _]. apply Forall2_length in Hbox. congruence.
Qed.

End UnderContract.

(* ================================================================== *)
(** ** Properties of the blend optimiser *)

(** C1 (feasibility bound).  Under the solver contract, on well-formed
    input [optimize_cost] returns an optimal blend exactly when
    [sum min_ratios <= 1 <= sum max_ratios], and returns the failure pair
    [(None, None)] in every other case. *)
Theorem feasibility_bound (linprog : linprog_t) (materials : list string)
    (prices min_ratios max_ratios : list Q) :
  linprog_contract linprog ->
  well_formed materials prices min_ratios max_ratios ->
  ((exists xs cost,
      optimize_cost linprog materials prices min_ratios max_ratios
        = Success xs cost) <->
   (Np.sum min_ratios <= 1 /\ 1 <= Np.sum max_ratios)) /\
  (~ (Np.sum min_ratios <= 1 /\ 1 <= Np.sum max_ratios) ->
   optimize_cost linprog materials prices min_ratios max_ratios = Infeasible).
Proof.
  intros contract Hwf.
  pose proof (feasible_blend_iff min_ratios max_ratios (wf_ordered _ _ _ _ Hwf))
    as Hiff.
  destruct (outcome linprog contract materials prices min_ratios max_ratios Hwf)
    as [[Hfeas Hok] | [Hno Hfail]].
  - split; [split; intros _; [apply Hiff, Hfeas | exact Hok] |].
    intros Hbad. elim Hbad. apply Hiff, Hfeas.
  - split; [split |].
    + intros (xs & cost & Hok). rewrite Hfail in Hok. discriminate.
    + intros Hsum. elim Hno. apply Hiff, Hsum.
    + intros _. exact Hfail.
Qed.

(** C2 (optimality).  Under the solver contract, a successful call returns
    a blend that no vector within the box and summing to one undercuts, and
    the returned cost is the objective value of the returned blend. *)
Theorem cost_optimal (linprog : linprog_t) (materials : list string)
    (prices min_ratios max_ratios xs : list Q) (cost : Q) :
  linprog_contract linprog ->
  optimize_cost linprog materials prices min_ratios max_ratios
    = Success xs cost ->
  (forall y, feasible_blend min_ratios max_ratios y ->
             ~ Np.inner prices y < Np.inner prices xs) /\
  cost == Np.inner prices xs.
Proof.
  intros contract H.
  destruct (success_optimal linprog contract materials _ _ _ _ _ H)
    as (_ & _ & _ & Hopt & Hcost).
  split; [| exact Hcost].
  intros y Hy Hlt. specialize (Hopt y Hy). lra.
Qed.

(** C3 (sum invariant).  Under the solver contract, the proportions
    returned by a successful call total one, to within 1e-6. *)
Theorem sum_invariant (linprog : linprog_t) (materials : list string)
    (prices min_ratios max_ratios xs : list Q) (cost : Q) :
  linprog_contract linprog ->
  optimize_cost linprog materials prices min_ratios max_ratios
    = Success xs cost ->
  Qabs (Np.sum xs - 1) <= 1 # 1000000.
Proof.
  intros contract H.
  destruct (success_optimal linprog contract materials _ _ _ _ _ H)
    as (_ & _ & [_ Hsum] & _).
  apply Qabs_Qle_condition. rewrite Hsum. split; lra.
Qed.

Lemma box_nth (min_ratios max_ratios : list Q) :
  forall (xs : list Q) (i : nat) (lo hi : Q),
    Forall2 in_bound (combine min_ratios max_ratios) xs ->
    nth_error min_ratios i = Some lo -> nth_error max_ratios i = Some hi ->
    exists v, nth_error xs i = Some v /\ lo <= v /\ v <= hi.
Proof.
  revert max_ratios.
  induction min_ratios as [|a mins IH]; intros [|b maxs] xs [|i] lo hi Hbox Hlo Hhi;
    simpl in *; try discriminate.
  - inversion Hbox as [|? v ? ? [Hl Hu] _]; subst; simpl in *.
    injection Hlo as <-. injection Hhi as <-. exists v. auto.
  - inversion Hbox; subst. eapply IH; eassumption.
Qed.

(** C4 (bound respect and degenerate pin).  Under the solver contract,
    every component of the blend returned by a successful call lies between
    its two limits; when the limits coincide the component equals them. *)
Theorem bound_respect (linprog : linprog_t) (materials : list string)
    (prices min_ratios max_ratios xs : list Q) (cost : Q)
    (i : nat) (lo hi : Q) :
  linprog_contract linprog ->
  optimize_cost linprog materials prices min_ratios max_ratios
    = Success xs cost ->
  nth_error min_ratios i = Some lo -> nth_error max_ratios i = Some hi ->
  exists v, nth_error xs i = Some v /\ lo <= v /\ v <= hi /\
            (lo == hi -> v == lo).
Proof.
  intros contract H Hlo Hhi.
  destruct (success_optimal linprog contract materials _ _ _ _ _ H)
    as (_ & _ & [Hbox _] & _).
  destruct (box_nth _ _ _ _ _ _ Hbox Hlo Hhi) as (v & Hv & Hl & Hu).
  exists v. repeat split; try assumption. intros Heq. lra.
Qed.

(** C5 (any number of materials).  Under the solver contract, for every
    N >= 1 and every well-formed input over N materials the call returns
    normally, with either the failure pair or a blend of N proportions. *)
Theorem any_material_count (linprog : linprog_t) (N : nat)
    (materials : list string) (prices min_ratios max_ratios : list Q) :
  linprog_contract linprog ->
  (1 <= N)%nat -> length materials = N ->
  well_formed materials prices min_ratios max_ratios ->
  optimize_cost linprog materials prices min_ratios max_ratios = Infeasible \/
  exists xs cost,
    optimize_cost linprog materials prices min_ratios max_ratios
      = Success xs cost /\ length xs = N.
Proof.
  intros contract _ HN Hwf.
  destruct (outcome linprog contract materials prices min_ratios max_ratios Hwf)
    as [[_ (xs & cost & Hok)] | [_ Hfail]]; [right | left; exact Hfail].
  exists xs, cost. split; [exact Hok |].
  destruct (success_optimal linprog contract materials _ _ _ _ _ Hok)
    as (Hn & Hlen & _). congruence.
Qed.

(** The width of the equality row is the length of the module-level
    [materials] list: a price list of another length is a [ValueError]. *)
Lemma material_count_mismatch (linprog : linprog_t) (materials : list string)
    (prices min_ratios max_ratios : list Q) :
  linprog_contract linprog ->
  length prices <> length materials ->
  optimize_cost linprog materials prices min_ratios max_ratios
    = inl ValueError.
Proof.
  intros contract Hne. unfold optimize_cost, bind.
  rewrite (linprog_shape _ contract); [reflexivity |].
  constructor. rewrite repeat_length. congruence.
Qed.

(** C6 (worked example).  Two materials priced 10 and 2, limits [0, 1]
    for both, reference recipe 50 % / 50 % (the script keeps the recipe in
    percent and divides by 100): under the solver contract the call
    succeeds with the blend (0, 1) and cost 2, and the comparison reports
    reference cost 6 and savings 4. *)
Theorem end_to_end_example (linprog : linprog_t) :
  linprog_contract linprog ->
  exists xs cost cmp,
    optimize_cost linprog ["A"; "B"]%string [10; 2] [0; 0] [1; 1]
      = Success xs cost /\
    Forall2 Qeq xs [0; 1] /\ cost == 2 /\
    Forall2 Qeq (Np.div_scalar [50; 50] 100) [1 # 2; 1 # 2] /\
    compare [50; 50] xs (Some cost) [10; 2] = inr cmp /\
    current_cost cmp == 6 /\ min_cost cmp == 2 /\ savings cmp == 4.
Proof.
  intros contract.
  assert (Hwf : well_formed ["A"; "B"]%string [10; 2] [0; 0] [1; 1]).
  { constructor; simpl; try reflexivity; try lia;
      repeat constructor; discriminate. }
  assert (Hone : feasible_blend [0; 0] [1; 1] [0; 1]).
  { split; [repeat constructor; simpl; lra | reflexivity]. }
  destruct (outcome linprog contract _ _ _ _ Hwf)
    as [[_ (xs & cost & Hok)] | [Hno _]]; [| elim Hno; eauto].
  destruct (success_optimal linprog contract _ _ _ _ _ _ Hok)
    as (_ & Hlen & [Hbox Hsum] & Hopt & Hcost).
  specialize (Hopt [0; 1] Hone).
  destruct xs as [|a [|b [|]]]; try discriminate.
  inversion Hbox as [|? ? ? ? [Ha0 Ha1] Hbox']; subst.
  inversion Hbox' as [|? ? ? ? [Hb0 Hb1] _]; subst.
  unfold Np.inner in Hopt, Hcost. simpl in *.
  assert (Ha : a == 0) by lra. assert (Hb : b == 1) by lra.
  exists [a; b], cost. eexists. split; [exact Hok |].
  split; [repeat constructor; assumption |].
  split; [lra |].
  split; [repeat constructor; reflexivity |].
  split; [reflexivity |]. simpl.
  split; [reflexivity |]. split; [lra |].
  assert (Href : Np.inner [50 / 100; 50 / 100] [10; 2] == 6) by reflexivity.
  rewrite Href. lra.
Qed.

(** C7 (failure signal).  Whenever the solver does not report success,
    [optimize_cost] returns the pair [(None, None)] and nothing else: no
    vector and no cost, so the outcome differs from every successful one,
    and the page shows the error box instead of a blend. *)
Theorem no_partial_result (linprog : linprog_t) (materials : list string)
    (ratios_july prices min_ratios max_ratios : list Q) (res : OptimizeResult) :
  linprog prices (Np.ones_row (length materials)) [1]
    (combine min_ratios max_ratios) = inr res ->
  success res = false ->
  optimize_cost linprog materials prices min_ratios max_ratios
    = inr (None, None) /\
  (forall xs cost,
     optimize_cost linprog materials prices min_ratios max_ratios
       <> Success xs cost) /\
  (forall ui,
     prices_of materials ui = prices ->
     min_ratios_of materials ui = min_ratios ->
     max_ratios_of materials ui = max_ratios ->
     page linprog materials ratios_july ui = inr (st_error failure_message)).
Proof.
  intros Hres Hfail.
  assert (H : optimize_cost linprog materials prices min_ratios max_ratios
              = inr (None, None)).
  { unfold optimize_cost, bind. rewrite Hres, Hfail. reflexivity. }
  split; [exact H |]. split.
  - intros xs cost. rewrite H. discriminate.
  - intros ui Hp Hmin Hmax. unfold page, bind.
    rewrite Hp, Hmin, Hmax, H. reflexivity.
Qed.

(** C8, as the code has it.  When the optimal vector has one entry per
    price (as every solver output has), the comparison fails exactly when
    the July recipe has another length than the optimal vector; the failure
    is the [ValueError] of [np.dot] and carries no figure.  With matching
    lengths the comparison never fails and its five outputs are functions
    of the recipe, the optimal vector, the optimal cost and the prices. *)
Theorem comparator_failure (ratios_july optimal_ratios prices : list Q)
    (min_cost : Q) :
  length optimal_ratios = length prices ->
  (length ratios_july <> length optimal_ratios ->
   compare ratios_july optimal_ratios (Some min_cost) prices = inl ValueError) /\
  (length ratios_july = length optimal_ratios ->
   compare ratios_july optimal_ratios (Some min_cost) prices =
     inr (mkComparison
            (Np.inner (Np.div_scalar ratios_july 100) prices)
            min_cost
            (Np.inner (Np.div_scalar ratios_july 100) prices - min_cost)
            (Np.zip_mul (Np.div_scalar ratios_july 100) prices)
            (Np.zip_mul optimal_ratios prices))).
Proof.
  intros Hopt. unfold compare, calculate_cost, Np.dot, Np.mul, Np.div_scalar, bind.
  rewrite length_map. split; intros Hlen.
  - destruct (Nat.eqb_spec (length ratios_july) (length prices)) as [Heq|_];
      [congruence | reflexivity].
  - rewrite Hopt in Hlen.
    apply Nat.eqb_eq in Hlen, Hopt. rewrite Hlen, Hopt. reflexivity.
Qed.

(** C8 as stated fails in both directions: a recipe and an optimal vector
    of the same length are rejected when the price list is longer, and a
    one-entry optimal vector is stretched by broadcasting, so that the
    comparison returns figures although the two vectors differ in length. *)
Lemma comparator_counterexample :
  (length [50; 50] = length [0; 1] /\
   compare [50; 50] [0; 1] (Some 2) [10; 2; 3] = inl ValueError) /\
  (length [50; 25; 25] <> length [1] /\
   exists cmp, compare [50; 25; 25] [1] (Some 2) [10; 2; 3] = inr cmp).
Proof.
  split; split; try reflexivity; try discriminate.
  eexists. reflexivity.
Qed.

(** C9 (quality sliders).  Two sidebars that agree on every price and on
    every limit pose the same problem and give the same page, whatever
    their strength and fineness targets are. *)
Theorem targets_are_cosmetic (linprog : linprog_t) (materials : list string)
    (ratios_july : list Q) (ui1 ui2 : Sidebar) :
  (forall i, (i < length materials)%nat ->
     price ui1 i = price ui2 i /\ min_r ui1 i = min_r ui2 i /\
     max_r ui1 i = max_r ui2 i) ->
  optimize_cost linprog materials (prices_of materials ui1)
    (min_ratios_of materials ui1) (max_ratios_of materials ui1)
  = optimize_cost linprog materials (prices_of materials ui2)
    (min_ratios_of materials ui2) (max_ratios_of materials ui2) /\
  page linprog materials ratios_july ui1 = page linprog materials ratios_july ui2.
Proof.
  intros Hsame.
  assert (Hp : prices_of materials ui1 = prices_of materials ui2).
  { apply map_ext_in. intros i Hi. apply in_seq in Hi. apply Hsame. lia. }
  assert (Hmin : min_ratios_of materials ui1 = min_ratios_of materials ui2).
  { apply map_ext_in. intros i Hi. apply in_seq in Hi.
    destruct (Hsame i) as (_ & -> & _); [lia | reflexivity]. }
  assert (Hmax : max_ratios_of materials ui1 = max_ratios_of materials ui2).
  { apply map_ext_in. intros i Hi. apply in_seq in Hi.
    destruct (Hsame i) as (_ & _ & ->); [lia | reflexivity]. }
  unfold page. rewrite Hp, Hmin, Hmax. split; reflexivity.
Qed.

(** C10 (one failure signal for every cause).  Two solver runs that both
    end without success, for whatever reason and with whatever status
    code, make [optimize_cost] return the same pair [(None, None)], and the
    page shows the same error box for both. *)
Theorem failures_are_indistinguishable (linprog1 linprog2 : linprog_t)
    (materials : list string) (ratios_july : list Q) (ui : Sidebar)
    (res1 res2 : OptimizeResult) :
  linprog1 (prices_of materials ui) (Np.ones_row (length materials)) [1]
    (combine (min_ratios_of materials ui) (max_ratios_of materials ui))
    = inr res1 ->
  linprog2 (prices_of materials ui) (Np.ones_row (length materials)) [1]
    (combine (min_ratios_of materials ui) (max_ratios_of materials ui))
    = inr res2 ->
  success res1 = false -> success res2 = false ->
  optimize_cost linprog1 materials (prices_of materials ui)
    (min_ratios_of materials ui) (max_ratios_of materials ui)
    = inr (None, None) /\
  optimize_cost linprog2 materials (prices_of materials ui)
    (min_ratios_of materials ui) (max_ratios_of materials ui)
    = inr (None, None) /\
  page linprog1 materials ratios_july ui = inr (st_error failure_message) /\
  page linprog2 materials ratios_july ui = inr (st_error failure_message).
Proof.
  intros H1 H2 F1 F2.
  unfold page, optimize_cost, bind. rewrite H1, H2, F1, F2.
  repeat split; reflexivity.
Qed.

(** When the July recipe itself respects the limits and totals 100 %, the
    optimised blend cannot cost more: the reported savings are not
    negative. *)
Lemma savings_nonneg (linprog : linprog_t) (materials : list string)
    (ratios_july prices min_ratios max_ratios xs : list Q) (cost : Q)
    (cmp : Comparison) :
  linprog_contract linprog ->
  optimize_cost linprog materials prices min_ratios max_ratios
    = Success xs cost ->
  feasible_blend min_ratios max_ratios (Np.div_scalar ratios_july 100) ->
  compare ratios_july xs (Some cost) prices = inr cmp ->
  0 <= savings cmp.
Proof.
  intros contract Hok Hrecipe Hcmp.
  destruct (success_optimal linprog contract materials _ _ _ _ _ Hok)
    as (_ & Hlen & Hblend & Hopt & Hcost).
  pose proof (feasible_blend_length _ _ _ _ Hrecipe Hblend) as Hsame.
  specialize (Hopt _ Hrecipe).
  unfold compare, calculate_cost, Np.dot, Np.mul, bind in Hcmp.
  rewrite Hsame, Hlen, Nat.eqb_refl in Hcmp. simpl in Hcmp.
  injection Hcmp as <-. simpl.
  rewrite (inner_comm (Np.div_scalar ratios_july 100) prices). lra.
Qed.

(* ================================================================== *)
(** ** The theorems at concrete inputs, with the exact solver *)

Ltac concrete_wf :=
  constructor; simpl; try reflexivity; try lia;
  repeat constructor; discriminate.

(** A feasible and an infeasible pair of limits for two materials. *)
Lemma feasibility_bound_witness :
  (exists xs cost,
     optimize_cost ExactLP.linprog ["A"; "B"]%string [10; 2] [0; 0] [1; 1]
       = Success xs cost) /\
  optimize_cost ExactLP.linprog ["A"; "B"]%string [10; 2] [6 # 10; 6 # 10] [1; 1]
    = Infeasible.
Proof.
  split.
  - apply (feasibility_bound ExactLP.linprog ["A"; "B"]%string [10; 2] [0; 0]
             [1; 1] ExactLPFacts.meets_contract); [concrete_wf |].
    simpl; split; lra.
  - apply (feasibility_bound ExactLP.linprog ["A"; "B"]%string [10; 2]
             [6 # 10; 6 # 10] [1; 1] ExactLPFacts.meets_contract);
      [concrete_wf |].
    simpl; intros [H _]; lra.
Defined.

(** The optimum (0, 1) against the even blend. *)
Lemma cost_optimal_witness :
  ~ Np.inner [10; 2] [1 # 2; 1 # 2] < Np.inner [10; 2] [0; 1] /\
  2 == Np.inner [10; 2] [0; 1].
Proof.
  destruct (cost_optimal ExactLP.linprog ["A"; "B"]%string [10; 2] [0; 0]
              [1; 1] [0; 1] 2 ExactLPFacts.meets_contract) as [H1 H2];
    [vm_compute; reflexivity |].
  split; [apply H1 | exact H2].
  split; [repeat constructor; simpl; lra | reflexivity].
Defined.

(** A blend with the second material pinned at 30 %. *)
Lemma sum_invariant_witness :
  Qabs (Np.sum [7 # 10; 3 # 10] - 1) <= 1 # 1000000.
Proof.
  apply (sum_invariant ExactLP.linprog ["A"; "B"]%string [10; 2] [0; 3 # 10]
           [1; 3 # 10] [7 # 10; 3 # 10] (760 # 100) ExactLPFacts.meets_contract).
  vm_compute; reflexivity.
Defined.

(** The pinned material of the same blend. *)
Lemma bound_respect_witness :
  exists v, nth_error [7 # 10; 3 # 10] 1 = Some v /\
            3 # 10 <= v /\ v <= 3 # 10 /\ (3 # 10 == 3 # 10 -> v == 3 # 10).
Proof.
  apply (bound_respect ExactLP.linprog ["A"; "B"]%string [10; 2] [0; 3 # 10]
           [1; 3 # 10] [7 # 10; 3 # 10] (760 # 100) 1 (3 # 10) (3 # 10)
           ExactLPFacts.meets_contract);
    [vm_compute; reflexivity | reflexivity | reflexivity].
Defined.

(** The seven materials and the initial widget values of the script. *)
Lemma any_material_count_witness :
  optimize_cost ExactLP.linprog Shipped.materials
    (prices_of Shipped.materials Shipped.initial)
    (min_ratios_of Shipped.materials Shipped.initial)
    (max_ratios_of Shipped.materials Shipped.initial) = Infeasible \/
  exists xs cost,
    optimize_cost ExactLP.linprog Shipped.materials
      (prices_of Shipped.materials Shipped.initial)
      (min_ratios_of Shipped.materials Shipped.initial)
      (max_ratios_of Shipped.materials Shipped.initial) = Success xs cost /\
    length xs = 7%nat.
Proof.
  apply (any_material_count ExactLP.linprog 7 Shipped.materials _ _ _
           ExactLPFacts.meets_contract); [lia | reflexivity |].
  constructor; try reflexivity; [simpl; lia | |];
    cbv; repeat constructor; discriminate.
Defined.

(** The worked example, run with the exact solver. *)
Lemma end_to_end_example_witness :
  exists xs cost cmp,
    optimize_cost ExactLP.linprog ["A"; "B"]%string [10; 2] [0; 0] [1; 1]
      = Success xs cost /\
    Forall2 Qeq xs [0; 1] /\ cost == 2 /\
    Forall2 Qeq (Np.div_scalar [50; 50] 100) [1 # 2; 1 # 2] /\
    compare [50; 50] xs (Some cost) [10; 2] = inr cmp /\
    current_cost cmp == 6 /\ min_cost cmp == 2 /\ savings cmp == 4.
Proof.
  exact (end_to_end_example ExactLP.linprog ExactLPFacts.meets_contract).
Defined.

(** Lower limits of 60 % each for two materials. *)
Lemma no_partial_result_witness :
  optimize_cost ExactLP.linprog ["A"; "B"]%string [10; 2] [6 # 10; 6 # 10] [1; 1]
    = inr (None, None).
Proof.
  apply (no_partial_result ExactLP.linprog ["A"; "B"]%string [50; 50] [10; 2]
           [6 # 10; 6 # 10] [1; 1] (ExactLP.failed 2));
    vm_compute; reflexivity.
Defined.

(** A three-entry recipe against two prices. *)
Lemma comparator_failure_witness :
  compare [50; 50; 0] [0; 1] (Some 2) [10; 2] = inl ValueError.
Proof.
  apply (comparator_failure [50; 50; 0] [0; 1] [10; 2] 2);
    [reflexivity | simpl; lia].
Defined.

(** The initial page, and the same page with both sliders moved. *)
Lemma targets_are_cosmetic_witness :
  page ExactLP.linprog Shipped.materials Shipped.ratios_july Shipped.initial
  = page ExactLP.linprog Shipped.materials Shipped.ratios_july
      (mkSidebar (price Shipped.initial) (min_r Shipped.initial)
         (max_r Shipped.initial) (25 # 2) 30).
Proof.
  apply (targets_are_cosmetic ExactLP.linprog Shipped.materials
           Shipped.ratios_july Shipped.initial
           (mkSidebar (price Shipped.initial) (min_r Shipped.initial)
              (max_r Shipped.initial) (25 # 2) 30)).
  intros i _. simpl. repeat split; reflexivity.
Defined.

(** An infeasible problem (status 2) and a solver that stops at its
    iteration limit (status 1). *)
Lemma failures_are_indistinguishable_witness :
  status (ExactLP.failed 2) <> status (ExactLP.failed 1) /\
  page ExactLP.linprog ["A"; "B"]%string [50; 50]
    (mkSidebar (fun i => nth i [10; 2] 0) (fun _ => 60) (fun _ => 100) 15 20)
  = inr (st_error failure_message) /\
  page ExactLP.gives_up ["A"; "B"]%string [50; 50]
    (mkSidebar (fun i => nth i [10; 2] 0) (fun _ => 60) (fun _ => 100) 15 20)
  = inr (st_error failure_message).
Proof.
  split; [discriminate |].
  apply (failures_are_indistinguishable ExactLP.linprog ExactLP.gives_up
           ["A"; "B"]%string [50; 50]
           (mkSidebar (fun i => nth i [10; 2] 0) (fun _ => 60) (fun _ => 100)
              15 20)
           (ExactLP.failed 2) (ExactLP.failed 1));
    vm_compute; reflexivity.
Defined.

(** The page as shipped: the July prices and limits admit a blend that is
    16.965 per tonne cheaper than the July recipe. *)
Example shipped_page :
  exists xs cmp,
    page ExactLP.linprog Shipped.materials Shipped.ratios_july Shipped.initial
      = inr (st_results xs cmp) /\
    Np.sum xs == 1 /\
    current_cost cmp == 11935426 # 100000 /\
    min_cost cmp == 10238926 # 100000 /\
    savings cmp == 16965 # 1000.
Proof.
  do 2 eexists. split; [vm_compute; reflexivity |].
  repeat split; vm_compute; reflexivity.
Qed.

(* ================================================================== *)
(** ** The page as a whole *)

Lemma div100 (a : Q) : a / 100 = a * (1 # 100).
Proof. reflexivity. Qed.

Lemma nth_error_widgets (f : nat -> Q) (n i : nat) :
  (i < n)%nat -> nth_error (map f (seq 0 n)) i = Some (f i).
Proof.
  intros Hi. apply map_nth_error. rewrite nth_error_seq.
  destruct (Nat.ltb_spec i n); [reflexivity | lia].
Qed.

Lemma widgets_box (P : Q * Q -> Q -> Prop) (f g h : nat -> Q) (l : list nat) :
  (forall i, In i l -> P (f i, g i) (h i)) ->
  Forall2 P (combine (map f l) (map g l)) (map h l).
Proof.
  induction l as [|i l IH]; intros H; simpl; constructor.
  - apply H. left. reflexivity.
  - apply IH. intros j Hj. apply H. right. exact Hj.
Qed.

Lemma widgets_ordered (f g : nat -> Q) (l : list nat) :
  (forall i, In i l -> f i <= g i) -> Forall2 Qle (map f l) (map g l).
Proof.
  induction l as [|i l IH]; intros H; simpl; constructor.
  - apply H. left. reflexivity.
  - apply IH. intros j Hj. apply H. right. exact Hj.
Qed.

Lemma sum_div100 (f : nat -> Q) (l : list nat) :
  Np.sum (map (fun i => f i / 100) l) == Np.sum (map f l) * (1 # 100).
Proof.
  induction l as [|i l IH]; simpl; [reflexivity |].
  rewrite IH, div100. ring.
Qed.

Lemma list_as_widgets (l : list Q) :
  map (fun i => nth i l 0) (seq 0 (length l)) = l.
Proof.
  induction l as [|a l IH]; simpl; [reflexivity |].
  f_equal. rewrite <- seq_shift, map_map. exact IH.
Qed.

Lemma prices_of_length (materials : list string) (ui : Sidebar) :
  length (prices_of materials ui) = length materials.
Proof. unfold prices_of. rewrite length_map, length_seq. reflexivity. Qed.

Lemma min_ratios_of_length (materials : list string) (ui : Sidebar) :
  length (min_ratios_of materials ui) = length materials.
Proof. unfold min_ratios_of. rewrite length_map, length_seq. reflexivity. Qed.

Lemma max_ratios_of_length (materials : list string) (ui : Sidebar) :
  length (max_ratios_of materials ui) = length materials.
Proof. unfold max_ratios_of. rewrite length_map, length_seq. reflexivity. Qed.

(** What a finished comparison says about its inputs. *)
Lemma compare_inv (ratios_july xs prices : list Q) (cost : option Q)
    (cmp : Comparison) :
  compare ratios_july xs cost prices = inr cmp ->
  length ratios_july = length prices /\
  cost = Some (min_cost cmp) /\
  current_cost cmp = Np.inner (Np.div_scalar ratios_july 100) prices /\
  savings cmp = current_cost cmp - min_cost cmp /\
  current_cost_breakdown cmp
    = Np.zip_mul (Np.div_scalar ratios_july 100) prices /\
  Np.mul xs prices = inr (optimal_cost_breakdown cmp).
Proof.
  unfold compare, calculate_cost, Np.dot, Np.div_scalar, bind.
  rewrite length_map.
  destruct (Nat.eqb_spec (length ratios_july) (length prices)) as [Hlen|];
    [| discriminate].
  simpl. destruct cost as [m|]; [| discriminate]. simpl.
  unfold Np.mul at 1. rewrite length_map.
  apply Nat.eqb_eq in Hlen. rewrite Hlen. simpl.
  destruct (Np.mul xs prices) as [e|ob]; [discriminate |].
  simpl. intros [= <-]. simpl. apply Nat.eqb_eq in Hlen.
  repeat split; (assumption || reflexivity).
Qed.

Lemma compare_matched (ratios_july xs prices : list Q) (cost : Q) :
  length ratios_july = length prices -> length xs = length prices ->
  exists cmp, compare ratios_july xs (Some cost) prices = inr cmp.
Proof.
  intros Hr Hx.
  unfold compare, calculate_cost, Np.dot, Np.mul, Np.div_scalar, bind.
  rewrite length_map. apply Nat.eqb_eq in Hr, Hx. rewrite Hr, Hx.
  eexists. reflexivity.
Qed.

Lemma compare_mismatched (ratios_july xs prices : list Q) (cost : option Q) :
  length ratios_july <> length prices ->
  compare ratios_july xs cost prices = inl ValueError.
Proof.
  intros Hr.
  unfold compare, calculate_cost, Np.dot, Np.div_scalar, bind.
  rewrite length_map. apply Nat.eqb_neq in Hr. rewrite Hr. reflexivity.
Qed.

Section Page.

Variable linprog : linprog_t.
Variable materials : list string.
Variable ratios_july : list Q.
Variable ui : Sidebar.

Let prices := prices_of materials ui.
Let mins := min_ratios_of materials ui.
Let maxs := max_ratios_of materials ui.

Lemma page_on_failure :
  optimize_cost linprog materials prices mins maxs = Infeasible ->
  page linprog materials ratios_july ui = inr (st_error failure_message).
Proof.
  intros H. unfold page, bind. fold prices mins maxs. rewrite H. reflexivity.
Qed.

Lemma page_on_success (xs : list Q) (cost : Q) :
  optimize_cost linprog materials prices mins maxs = Success xs cost ->
  page linprog materials ratios_july ui
  = (cmp <- compare ratios_july xs (Some cost) prices ;;
     ret (st_results xs cmp)).
Proof.
  intros H. unfold page at 1. unfold bind at 1. fold prices mins maxs.
  rewrite H. reflexivity.
Qed.

Lemma page_results_inv (xs : list Q) (cmp : Comparison) :
  page linprog materials ratios_july ui = inr (st_results xs cmp) ->
  optimize_cost linprog materials prices mins maxs
    = Success xs (min_cost cmp) /\
  compare ratios_july xs (Some (min_cost cmp)) prices = inr cmp.
Proof.
  unfold page, bind. fold prices mins maxs.
  destruct (optimize_cost linprog materials prices mins maxs)
    as [e|[[xs'|] cost]]; try discriminate.
  destruct (compare ratios_july xs' cost prices) as [e|cmp'] eqn:Hcmp;
    [discriminate |].
  intros [= <- <-].
  destruct (compare_inv _ _ _ _ _ Hcmp) as (_ & -> & _).
  split; [reflexivity | exact Hcmp].
Qed.

Hypothesis contract : linprog_contract linprog.

(** The call the page makes is always well-shaped, so it ends in one of
    the two outcomes; feasibility of the typed limits decides which. *)
Lemma page_call :
  ((exists y, feasible_blend mins maxs y) /\
   exists xs cost,
     optimize_cost linprog materials prices mins maxs = Success xs cost) \/
  (~ (exists y, feasible_blend mins maxs y) /\
   optimize_cost linprog materials prices mins maxs = Infeasible).
Proof.
  pose proof (prices_of_length materials ui) as Hp.
  pose proof (min_ratios_of_length materials ui) as Hmin.
  pose proof (max_ratios_of_length materials ui) as Hmax.
  fold prices in Hp. fold mins in Hmin. fold maxs in Hmax.
  assert (Hb : length (combine mins maxs) = length prices).
  { rewrite length_combine. lia. }
  destruct (linprog_returns _ contract prices
              (Np.ones_row (length materials)) [1] (combine mins maxs))
    as [res Hres].
  { repeat split; try assumption.
    constructor; [| constructor]. rewrite repeat_length. congruence. }
  unfold optimize_cost, bind. rewrite Hres.
  destruct (success res) eqn:Hok.
  - left.
    destruct (linprog_sound _ contract _ _ _ _ _ Hres Hok)
      as (xs & f & Hx & Hf & [Hfeas _] & _).
    apply lp_feasible_blend in Hfeas as [_ Hblend]; [| congruence].
    split; [eauto |]. exists xs, f. rewrite Hx, Hf. reflexivity.
  - right. split; [| reflexivity].
    intros (y & Hy).
    assert (Hyes : success res = true); [| congruence].
    rewrite <- Hp in Hres.
    apply (linprog_complete _ contract _ _ _ Hres).
    exists y. apply lp_feasible_blend; [reflexivity |].
    split; [| assumption].
    destruct Hy as [Hbox _]. apply Forall2_length in Hbox. congruence.
Qed.

Lemma page_error_iff_infeasible :
  page linprog materials ratios_july ui = inr (st_error failure_message) <->
  ~ (exists y, feasible_blend mins maxs y).
Proof.
  destruct page_call as [[Hfeas (xs & cost & Hok)] | [Hno Hfail]].
  - split; [| intros Hno; elim Hno; exact Hfeas].
    rewrite (page_on_success _ _ Hok). unfold bind.
    destruct (compare _ _ _ _); discriminate.
  - split; [intros _; exact Hno | intros _; apply page_on_failure, Hfail].
Qed.

End Page.

(** The limits in percent admit a blend exactly when [limits_ok] holds. *)
Lemma limits_feasible_iff (materials : list string) (ui : Sidebar) :
  (exists y, feasible_blend (min_ratios_of materials ui)
               (max_ratios_of materials ui) y) <->
  limits_ok materials ui.
Proof.
  unfold limits_ok, percent_total.
  assert (Hsum : forall f : nat -> Q,
            Np.sum (map (fun i => f i / 100) (seq 0 (length materials)))
            == Np.sum (map f (seq 0 (length materials))) * (1 # 100))
    by (intros f; apply sum_div100).
  assert (Hord : (forall i, (i < length materials)%nat ->
                             min_r ui i <= max_r ui i) ->
                 Forall2 Qle (min_ratios_of materials ui)
                   (max_ratios_of materials ui)).
  { intros H. apply widgets_ordered. intros i Hi. apply in_seq in Hi.
    rewrite !div100. specialize (H i ltac:(lia)). lra. }
  split.
  - intros Hfeas.
    assert (Hle : forall i, (i < length materials)%nat ->
                            min_r ui i <= max_r ui i).
    { intros i Hi. destruct Hfeas as (y & Hbox & _).
      destruct (box_nth _ _ y i _ _ Hbox
                  (nth_error_widgets _ _ _ Hi) (nth_error_widgets _ _ _ Hi))
        as (v & _ & Hl & Hu).
      rewrite div100 in Hl, Hu. lra. }
    split; [exact Hle |].
    apply (feasible_blend_iff _ _ (Hord Hle)) in Hfeas.
    unfold min_ratios_of, max_ratios_of in Hfeas.
    rewrite !Hsum in Hfeas. lra.
  - intros (Hle & Hmin & Hmax).
    apply (feasible_blend_iff _ _ (Hord Hle)).
    unfold min_ratios_of, max_ratios_of. rewrite !Hsum. lra.
Qed.

(** With a recipe of one entry per material the page never raises: it
    shows either the error box or the results. *)
Theorem page_never_raises (linprog : linprog_t) (materials : list string)
    (ratios_july : list Q) (ui : Sidebar) :
  linprog_contract linprog ->
  length ratios_july = length materials ->
  page linprog materials ratios_july ui = inr (st_error failure_message) \/
  exists xs cmp, page linprog materials ratios_july ui = inr (st_results xs cmp).
Proof.
  intros contract Hr.
  destruct (page_call linprog materials ui contract)
    as [[_ (xs & cost & Hok)] | [_ Hfail]];
    [right | left; apply page_on_failure, Hfail].
  destruct (success_optimal linprog contract materials _ _ _ _ _ Hok)
    as (_ & Hlen & _).
  rewrite (page_on_success _ _ ratios_july _ _ _ Hok).
  destruct (compare_matched ratios_july xs (prices_of materials ui) cost)
    as [cmp Hcmp]; [rewrite prices_of_length; exact Hr | exact Hlen |].
  exists xs, cmp. unfold bind. rewrite Hcmp. reflexivity.
Qed.

(** A recipe with more entries than there are materials never reaches the
    results: limits that admit a blend end in the [ValueError] of [np.dot]
    (line 108), all other limits in the error box.  (A recipe with fewer
    entries already stops the script at line 56.) *)
Theorem page_recipe_mismatch (linprog : linprog_t) (materials : list string)
    (ratios_july : list Q) (ui : Sidebar) :
  linprog_contract linprog ->
  (length materials < length ratios_july)%nat ->
  (limits_ok materials ui ->
   page linprog materials ratios_july ui = inl ValueError) /\
  (~ limits_ok materials ui ->
   page linprog materials ratios_july ui = inr (st_error failure_message)).
Proof.
  intros contract Hr. split; intros Hlim.
  - apply limits_feasible_iff in Hlim.
    destruct (page_call linprog materials ui contract)
      as [[_ (xs & cost & Hok)] | [Hno _]]; [| elim Hno; exact Hlim].
    rewrite (page_on_success _ _ ratios_july _ _ _ Hok).
    rewrite compare_mismatched; [reflexivity |].
    rewrite prices_of_length. lia.
  - apply page_error_iff_infeasible; [exact contract |].
    intros Hfeas. apply Hlim, limits_feasible_iff, Hfeas.
Qed.

(** The error box appears exactly when the typed limits leave no room for
    a blend: some minimum above its maximum, minima totalling more than
    100 %, or maxima totalling less. *)
Theorem page_error_iff_limits (linprog : linprog_t) (materials : list string)
    (ratios_july : list Q) (ui : Sidebar) :
  linprog_contract linprog ->
  (page linprog materials ratios_july ui = inr (st_error failure_message) <->
   ~ limits_ok materials ui).
Proof.
  intros contract.
  rewrite (page_error_iff_infeasible linprog materials ratios_july ui contract).
  split; intros H Hlim; apply H, limits_feasible_iff, Hlim.
Qed.

(** One material whose minimum exceeds its maximum is enough for the error
    box, whatever the other widgets hold. *)
Theorem crossed_limits_error (linprog : linprog_t) (materials : list string)
    (ratios_july : list Q) (ui : Sidebar) (i : nat) :
  linprog_contract linprog ->
  (i < length materials)%nat -> max_r ui i < min_r ui i ->
  page linprog materials ratios_july ui = inr (st_error failure_message).
Proof.
  intros contract Hi Hcross.
  apply page_error_iff_infeasible; [exact contract |].
  intros Hfeas. apply limits_feasible_iff in Hfeas as [Hle _].
  specialize (Hle i Hi). lra.
Qed.

(* ================================================================== *)
(** ** What the results show *)

Lemma sum_as_percent (xs : list Q) : Np.sum (as_percent xs) == Np.sum xs * 100.
Proof.
  induction xs as [|v xs IH]; simpl; [reflexivity |]. rewrite IH. ring.
Qed.

Lemma sum_div_scalar (a : list Q) :
  Np.sum (Np.div_scalar a 100) == Np.sum a * (1 # 100).
Proof.
  induction a as [|v a IH]; simpl; [reflexivity |].
  rewrite IH, div100. ring.
Qed.

Lemma zip_mul_length (a b : list Q) :
  length a = length b -> length (Np.zip_mul a b) = length b.
Proof.
  revert b. induction a as [|v a IH]; intros [|w b] H; simpl in *;
    try discriminate; [reflexivity | f_equal; apply IH; lia].
Qed.

Lemma mul_matched (a b ob : list Q) :
  length a = length b -> Np.mul a b = inr ob -> ob = Np.zip_mul a b.
Proof.
  intros Hlen. unfold Np.mul. apply Nat.eqb_eq in Hlen. rewrite Hlen.
  intros [= <-]. reflexivity.
Qed.

Lemma Forall_nth_in (P : Q -> Prop) (l : list Q) (i : nat) (d : Q) :
  Forall P l -> (i < length l)%nat -> P (nth i l d).
Proof.
  intros H Hi. rewrite Forall_forall in H. apply H, nth_In, Hi.
Qed.

Lemma box_nonneg (min_ratios max_ratios y : list Q) :
  Forall (fun l => 0 <= l) min_ratios ->
  Forall2 in_bound (combine min_ratios max_ratios) y ->
  Forall (fun v => 0 <= v) y.
Proof.
  intros Hmin; revert max_ratios y.
  induction Hmin as [|l mins Hl _ IH]; intros [|u maxs] y Hbox; simpl in *;
    inversion Hbox as [|? v ? ? [Hlo _] Hbox']; subst; constructor.
  - simpl in Hlo. lra.
  - eapply IH; eassumption.
Qed.

Lemma box_widen (mins' mins : list Q) :
  Forall2 Qle mins' mins ->
  forall maxs maxs' y,
    Forall2 Qle maxs maxs' ->
    Forall2 in_bound (combine mins maxs) y ->
    Forall2 in_bound (combine mins' maxs') y.
Proof.
  induction 1 as [|l' l mins' mins Hl _ IH]; intros maxs maxs' y Hmax Hbox.
  - simpl in *. exact Hbox.
  - destruct Hmax as [|u u' maxs maxs' Hu Hmax]; simpl in *; [exact Hbox |].
    inversion Hbox as [|? v ? ? [Hlo Hhi] Hbox']; subst; simpl in *.
    constructor; [split; simpl; lra | eapply IH; eassumption].
Qed.

(** An inner product with weights that are not negative lies between the
    least and the greatest coefficient times the total weight. *)
Lemma inner_between (lo hi : Q) (c : list Q) :
  forall y,
    length c = length y ->
    Forall (fun ci => lo <= ci /\ ci <= hi) c ->
    Forall (fun v => 0 <= v) y ->
    lo * Np.sum y <= Np.inner c y /\ Np.inner c y <= hi * Np.sum y.
Proof.
  induction c as [|ci c IH]; intros [|v y] Hlen Hc Hy; simpl in *;
    try discriminate.
  - unfold Np.inner; simpl. split; lra.
  - inversion Hc as [|? ? [Hlo Hhi] Hc']; subst.
    inversion Hy as [|? ? Hv Hy']; subst.
    destruct (IH y ltac:(lia) Hc' Hy') as [IHlo IHhi].
    rewrite inner_cons. split; nra.
Qed.

Lemma inner_mono (c c' : list Q) :
  Forall2 Qle c c' ->
  forall y, Forall (fun v => 0 <= v) y -> Np.inner c y <= Np.inner c' y.
Proof.
  induction 1 as [|ci ci' c c' Hci _ IH]; intros [|v y] Hy;
    try (unfold Np.inner; simpl; lra).
  inversion Hy as [|? ? Hv Hy']; subst.
  specialize (IH y Hy'). rewrite !inner_cons. nra.
Qed.

Lemma inner_nonneg (c : list Q) :
  Forall (fun ci => 0 <= ci) c ->
  forall y, Forall (fun v => 0 <= v) y -> 0 <= Np.inner c y.
Proof.
  induction 1 as [|ci c Hci _ IH]; intros [|v y] Hy;
    try (unfold Np.inner; simpl; lra).
  inversion Hy as [|? ? Hv Hy']; subst.
  specialize (IH y Hy'). rewrite inner_cons. nra.
Qed.

(** The percentages drawn and tabulated for the optimised blend total 100
    and lie, material by material, between the minimum and the maximum
    typed into the sidebar. *)
Theorem results_within_limits (linprog : linprog_t) (materials : list string)
    (ratios_july : list Q) (ui : Sidebar) (xs : list Q) (cmp : Comparison) :
  linprog_contract linprog ->
  page linprog materials ratios_july ui = inr (st_results xs cmp) ->
  Np.sum (as_percent xs) == 100 /\
  forall i, (i < length materials)%nat ->
    exists v, nth_error (as_percent xs) i = Some v /\
              min_r ui i <= v /\ v <= max_r ui i.
Proof.
  intros contract Hpage.
  destruct (page_results_inv _ _ _ _ _ _ Hpage) as [Hok _].
  destruct (success_optimal linprog contract materials _ _ _ _ _ Hok)
    as (_ & _ & [Hbox Hsum] & _).
  split; [rewrite sum_as_percent, Hsum; reflexivity |].
  intros i Hi.
  destruct (box_nth _ _ xs i _ _ Hbox
              (nth_error_widgets _ _ _ Hi) (nth_error_widgets _ _ _ Hi))
    as (v & Hv & Hl & Hu).
  exists (v * 100).
  split; [exact (map_nth_error (fun w => w * 100) _ _ Hv) |].
  rewrite div100 in Hl, Hu. split; lra.
Qed.

(** When the results are shown, the six columns of the table have one
    entry per material. *)
Theorem table_columns (linprog : linprog_t) (materials : list string)
    (ratios_july : list Q) (ui : Sidebar) (xs : list Q) (cmp : Comparison) :
  linprog_contract linprog ->
  page linprog materials ratios_july ui = inr (st_results xs cmp) ->
  length ratios_july = length materials /\
  length (as_percent xs) = length materials /\
  length (prices_of materials ui) = length materials /\
  length (current_cost_breakdown cmp) = length materials /\
  length (optimal_cost_breakdown cmp) = length materials.
Proof.
  intros contract Hpage.
  destruct (page_results_inv _ _ _ _ _ _ Hpage) as [Hok Hcmp].
  destruct (success_optimal linprog contract materials _ _ _ _ _ Hok)
    as (_ & Hlen & _).
  destruct (compare_inv _ _ _ _ _ Hcmp) as (Hr & _ & _ & _ & Hcb & Hob).
  pose proof (prices_of_length materials ui) as Hp.
  apply (mul_matched _ _ _ Hlen) in Hob.
  unfold as_percent. rewrite length_map, Hcb, Hob, !zip_mul_length;
    try assumption; [| unfold Np.div_scalar; rewrite length_map; exact Hr].
  repeat split; congruence.
Qed.

(** The slices of each pie chart add up to the cost shown in the metric
    above it: the July contributions to the July cost, the optimised
    contributions to the cost the solver returned. *)
Theorem breakdowns_total (linprog : linprog_t) (materials : list string)
    (ratios_july : list Q) (ui : Sidebar) (xs : list Q) (cmp : Comparison) :
  linprog_contract linprog ->
  page linprog materials ratios_july ui = inr (st_results xs cmp) ->
  Np.sum (current_cost_breakdown cmp) == current_cost cmp /\
  Np.sum (optimal_cost_breakdown cmp) == min_cost cmp.
Proof.
  intros contract Hpage.
  destruct (page_results_inv _ _ _ _ _ _ Hpage) as [Hok Hcmp].
  destruct (success_optimal linprog contract materials _ _ _ _ _ Hok)
    as (_ & Hlen & _ & _ & Hcost).
  destruct (compare_inv _ _ _ _ _ Hcmp) as (_ & _ & Hcur & _ & Hcb & Hob).
  apply (mul_matched _ _ _ Hlen) in Hob.
  rewrite Hcb, Hob, Hcur, Hcost. split; [reflexivity |].
  apply inner_comm.
Qed.

(** With widget values inside their ranges, every optimised proportion is
    between 0 and 1, and the optimised cost is not negative and lies
    between any lower and upper bound of the prices. *)
Theorem optimal_cost_between_prices (linprog : linprog_t)
    (materials : list string) (ratios_july : list Q) (ui : Sidebar)
    (xs : list Q) (cmp : Comparison) :
  linprog_contract linprog ->
  in_range materials ui ->
  page linprog materials ratios_july ui = inr (st_results xs cmp) ->
  Forall (fun v => 0 <= v /\ v <= 1) xs /\
  0 <= min_cost cmp /\
  forall lo hi,
    (forall i, (i < length materials)%nat ->
               lo <= price ui i /\ price ui i <= hi) ->
    lo <= min_cost cmp /\ min_cost cmp <= hi.
Proof.
  intros contract Hrange Hpage.
  destruct (page_results_inv _ _ _ _ _ _ Hpage) as [Hok _].
  destruct (success_optimal linprog contract materials _ _ _ _ _ Hok)
    as (_ & Hlen & [Hbox Hsum] & _ & Hcost).
  assert (Hpos : Forall (fun v => 0 <= v) xs).
  { refine (box_nonneg _ _ _ _ Hbox).
    apply Forall_forall. intros l Hl. apply in_map_iff in Hl as (i & <- & Hi).
    apply in_seq in Hi. destruct (Hrange i ltac:(lia)) as (_ & [H0 _] & _).
    rewrite div100. lra. }
  assert (Hbetween : forall lo hi,
            (forall i, (i < length materials)%nat ->
                       lo <= price ui i /\ price ui i <= hi) ->
            lo <= min_cost cmp /\ min_cost cmp <= hi).
  { intros lo hi Hp.
    destruct (inner_between lo hi (prices_of materials ui) xs) as [Hlo Hhi];
      [congruence | | exact Hpos | rewrite Hcost; split; nra].
    apply Forall_forall. intros p Hin. apply in_map_iff in Hin as (i & <- & Hi).
    apply in_seq in Hi. apply Hp. lia. }
  split; [| split; [| exact Hbetween]].
  - apply Forall_forall. intros v Hv.
    destruct (In_nth_error _ _ Hv) as [i Hi].
    assert (Hlt : (i < length materials)%nat).
    { rewrite <- (prices_of_length materials ui), <- Hlen.
      apply nth_error_Some. congruence. }
    destruct (box_nth _ _ xs i _ _ Hbox
                (nth_error_widgets _ _ _ Hlt) (nth_error_widgets _ _ _ Hlt))
      as (v' & Hv' & _ & Hu).
    assert (v' = v) by congruence. subst v'.
    rewrite Forall_forall in Hpos. specialize (Hpos v Hv).
    destruct (Hrange i Hlt) as (_ & _ & [_ H100]).
    rewrite div100 in Hu. split; lra.
  - rewrite Hcost. apply inner_nonneg; [| exact Hpos].
    apply Forall_forall. intros p Hin. apply in_map_iff in Hin as (i & <- & Hi).
    apply in_seq in Hi. apply (Hrange i). lia.
Qed.

Lemma zip_mul_nonneg (a : list Q) :
  Forall (fun v => 0 <= v) a ->
  forall b, Forall (fun w => 0 <= w) b ->
            Forall (fun z => 0 <= z) (Np.zip_mul a b).
Proof.
  induction 1 as [|v a Hv _ IH]; intros [|w b] Hb; simpl; constructor.
  - inversion Hb; subst. nra.
  - inversion Hb; subst. apply IH. assumption.
Qed.

(** With widget values inside their ranges and a recipe without negative
    entries, no slice handed to either pie chart is negative. *)
Theorem pie_slices_nonneg (linprog : linprog_t) (materials : list string)
    (ratios_july : list Q) (ui : Sidebar) (xs : list Q) (cmp : Comparison) :
  linprog_contract linprog ->
  in_range materials ui ->
  Forall (fun r => 0 <= r) ratios_july ->
  page linprog materials ratios_july ui = inr (st_results xs cmp) ->
  Forall (fun z => 0 <= z) (current_cost_breakdown cmp) /\
  Forall (fun z => 0 <= z) (optimal_cost_breakdown cmp).
Proof.
  intros contract Hrange Hrecipe Hpage.
  destruct (page_results_inv _ _ _ _ _ _ Hpage) as [Hok Hcmp].
  destruct (success_optimal linprog contract materials _ _ _ _ _ Hok)
    as (_ & Hlen & [Hbox _] & _).
  destruct (compare_inv _ _ _ _ _ Hcmp) as (_ & _ & _ & _ & Hcb & Hob).
  apply (mul_matched _ _ _ Hlen) in Hob.
  assert (Hprices : Forall (fun p => 0 <= p) (prices_of materials ui)).
  { apply Forall_forall. intros p Hin. apply in_map_iff in Hin as (i & <- & Hi).
    apply in_seq in Hi. apply (Hrange i). lia. }
  rewrite Hcb, Hob. split; apply zip_mul_nonneg; try exact Hprices.
  - apply Forall_forall. intros v Hv. apply in_map_iff in Hv as (r & <- & Hr).
    rewrite Forall_forall in Hrecipe. specialize (Hrecipe r Hr).
    rewrite div100. lra.
  - refine (box_nonneg _ _ _ _ Hbox).
    apply Forall_forall. intros l Hl. apply in_map_iff in Hl as (i & <- & Hi).
    apply in_seq in Hi. destruct (Hrange i ltac:(lia)) as (_ & [H0 _] & _).
    rewrite div100. lra.
Qed.

(* ================================================================== *)
(** ** The initial page, and how the optimum moves with its inputs *)

(** A recipe that respects the limits is a candidate blend, so the
    optimum cannot cost more than it. *)
Lemma recipe_not_cheaper (linprog : linprog_t) (materials : list string)
    (ratios_july prices min_ratios max_ratios xs : list Q) (cost : Q) :
  linprog_contract linprog ->
  optimize_cost linprog materials prices min_ratios max_ratios
    = Success xs cost ->
  feasible_blend min_ratios max_ratios (Np.div_scalar ratios_july 100) ->
  cost <= Np.inner (Np.div_scalar ratios_july 100) prices.
Proof.
  intros contract Hok Hrecipe.
  destruct (success_optimal linprog contract materials _ _ _ _ _ Hok)
    as (_ & _ & _ & Hopt & Hcost).
  specialize (Hopt _ Hrecipe).
  rewrite (inner_comm (Np.div_scalar ratios_july 100) prices). lra.
Qed.

(** The limits the widgets start with always contain the recipe they were
    derived from. *)
Lemma initial_limits_hold_recipe (materials : list string)
    (prices_july ratios_july : list Q) :
  length ratios_july = length materials ->
  Forall (fun r => 0 <= r /\ r <= 100) ratios_july ->
  Np.sum ratios_july == 100 ->
  feasible_blend
    (min_ratios_of materials (initial_sidebar prices_july ratios_july))
    (max_ratios_of materials (initial_sidebar prices_july ratios_july))
    (Np.div_scalar ratios_july 100).
Proof.
  intros Hlen Hr Hsum. split.
  - unfold min_ratios_of, max_ratios_of, Np.div_scalar. simpl.
    rewrite <- Hlen.
    assert (Hre : map (fun v => v / 100) ratios_july
                  = map (fun i => nth i ratios_july 0 / 100)
                      (seq 0 (length ratios_july))).
    { rewrite <- (map_map (fun i => nth i ratios_july 0) (fun v => v / 100)),
        list_as_widgets. reflexivity. }
    rewrite Hre. apply widgets_box. intros i Hi. apply in_seq in Hi.
    destruct (Forall_nth_in _ _ i 0 Hr ltac:(lia)) as [H0 H100].
    set (r := nth i ratios_july 0) in *.
    pose proof (Q.max_lub 0 (r - 5) r H0 ltac:(lra)).
    pose proof (Q.min_glb 100 (r + 5) r H100 ltac:(lra)).
    split; simpl; rewrite !div100; lra.
  - rewrite sum_div_scalar, Hsum. reflexivity.
Qed.

(** Before the user touches a widget the page shows results, not the
    error box, and the optimised cost does not exceed the recipe's:
    this holds for any recipe with one entry per material, entries between
    0 and 100, that totals 100 %. *)
Theorem initial_page_shows_results (linprog : linprog_t)
    (materials : list string) (prices_july ratios_july : list Q) :
  linprog_contract linprog ->
  length prices_july = length materials ->
  length ratios_july = length materials ->
  Forall (fun r => 0 <= r /\ r <= 100) ratios_july ->
  Np.sum ratios_july == 100 ->
  exists xs cmp,
    page linprog materials ratios_july (initial_sidebar prices_july ratios_july)
      = inr (st_results xs cmp) /\
    0 <= savings cmp.
Proof.
  intros contract _ Hlen Hr Hsum.
  set (ui := initial_sidebar prices_july ratios_july).
  pose proof (initial_limits_hold_recipe materials prices_july ratios_july
                Hlen Hr Hsum) as Hrecipe. fold ui in Hrecipe.
  destruct (page_call linprog materials ui contract)
    as [[_ (xs & cost & Hok)] | [Hno _]]; [| elim Hno; eauto].
  destruct (success_optimal linprog contract materials _ _ _ _ _ Hok)
    as (_ & Hxs & _).
  destruct (compare_matched ratios_july xs (prices_of materials ui) cost)
    as [cmp Hcmp]; [rewrite prices_of_length; exact Hlen | exact Hxs |].
  exists xs, cmp. split.
  - rewrite (page_on_success _ _ ratios_july _ _ _ Hok). unfold bind.
    rewrite Hcmp. reflexivity.
  - destruct (compare_inv _ _ _ _ _ Hcmp) as (_ & Hm & Hcur & Hsav & _).
    injection Hm as Hm. rewrite Hsav, Hcur, <- Hm.
    pose proof (recipe_not_cheaper linprog materials ratios_july _ _ _ _ _
                  contract Hok Hrecipe).
    lra.
Qed.

(** The values the limit widgets start with respect the widgets' own
    ranges whenever the July prices are not negative and every recipe
    entry lies between -5 and 105. *)
Theorem initial_in_range (materials : list string)
    (prices_july ratios_july : list Q) :
  length prices_july = length materials ->
  length ratios_july = length materials ->
  Forall (fun p => 0 <= p) prices_july ->
  Forall (fun r => -(5) <= r /\ r <= 105) ratios_july ->
  in_range materials (initial_sidebar prices_july ratios_july).
Proof.
  intros Hp Hr Hprices Hrecipe i Hi. simpl.
  pose proof (Forall_nth_in _ _ i 0 Hprices ltac:(lia)) as Hprice.
  destruct (Forall_nth_in _ _ i 0 Hrecipe ltac:(lia)) as [Hlo Hhi].
  set (r := nth i ratios_july 0) in *.
  pose proof (Q.le_max_l 0 (r - 5)).
  pose proof (Q.max_lub 0 (r - 5) 100 ltac:(lra) ltac:(lra)).
  pose proof (Q.le_min_l 100 (r + 5)).
  pose proof (Q.min_glb 100 (r + 5) 0 ltac:(lra) ltac:(lra)).
  repeat split; assumption.
Qed.

(** Widening the limits never makes the optimum dearer: if both calls
    succeed, the cost under the wider limits is at most the cost under the
    narrower ones. *)
Theorem wider_limits_cheaper (linprog : linprog_t) (materials : list string)
    (prices mins maxs mins' maxs' xs xs' : list Q) (cost cost' : Q) :
  linprog_contract linprog ->
  Forall2 Qle mins' mins -> Forall2 Qle maxs maxs' ->
  optimize_cost linprog materials prices mins maxs = Success xs cost ->
  optimize_cost linprog materials prices mins' maxs' = Success xs' cost' ->
  cost' <= cost.
Proof.
  intros contract Hmin Hmax Hok Hok'.
  destruct (success_optimal linprog contract materials _ _ _ _ _ Hok)
    as (_ & _ & [Hbox Hsum] & _ & Hcost).
  destruct (success_optimal linprog contract materials _ _ _ _ _ Hok')
    as (_ & _ & _ & Hopt' & Hcost').
  assert (Hwide : feasible_blend mins' maxs' xs).
  { split; [| exact Hsum]. eapply box_widen; eassumption. }
  specialize (Hopt' xs Hwide). lra.
Qed.

(** Raising prices never makes the optimum cheaper: with limits that are
    not negative, prices that are at least as high material by material
    give an optimal cost that is at least as high. *)
Theorem dearer_prices_dearer_blend (linprog : linprog_t)
    (materials : list string) (prices prices' mins maxs xs xs' : list Q)
    (cost cost' : Q) :
  linprog_contract linprog ->
  Forall2 Qle prices prices' -> Forall (fun l => 0 <= l) mins ->
  optimize_cost linprog materials prices mins maxs = Success xs cost ->
  optimize_cost linprog materials prices' mins maxs = Success xs' cost' ->
  cost <= cost'.
Proof.
  intros contract Hprices Hmins Hok Hok'.
  destruct (success_optimal linprog contract materials _ _ _ _ _ Hok)
    as (_ & _ & _ & Hopt & Hcost).
  destruct (success_optimal linprog contract materials _ _ _ _ _ Hok')
    as (_ & _ & [Hbox' Hsum'] & _ & Hcost').
  specialize (Hopt xs' (conj Hbox' Hsum')).
  pose proof (inner_mono prices prices' Hprices xs'
                (box_nonneg _ _ _ Hmins Hbox')).
  lra.
Qed.

(* ================================================================== *)
(** ** The page theorems at concrete inputs, with the exact solver *)

(** Two prices against the seven shipped materials. *)
Lemma material_count_mismatch_witness :
  optimize_cost ExactLP.linprog Shipped.materials [10; 2] [0; 0] [1; 1]
    = inl ValueError.
Proof.
  apply (material_count_mismatch ExactLP.linprog Shipped.materials [10; 2]
           [0; 0] [1; 1] ExactLPFacts.meets_contract).
  simpl. lia.
Defined.

(** The even recipe lies within the limits of the worked example. *)
Lemma savings_nonneg_witness :
  exists cmp,
    compare [50; 50] [0; 1] (Some 2) [10; 2] = inr cmp /\ 0 <= savings cmp.
Proof.
  eexists. split; [reflexivity |].
  apply (savings_nonneg ExactLP.linprog ["A"; "B"]%string [50; 50] [10; 2]
           [0; 0] [1; 1] [0; 1] 2 _ ExactLPFacts.meets_contract);
    [vm_compute; reflexivity | | reflexivity].
  split; [repeat constructor; cbv; discriminate | reflexivity].
Defined.

(** The shipped page. *)
Lemma page_never_raises_witness :
  page ExactLP.linprog Shipped.materials Shipped.ratios_july Shipped.initial
    = inr (st_error failure_message) \/
  exists xs cmp,
    page ExactLP.linprog Shipped.materials Shipped.ratios_july Shipped.initial
      = inr (st_results xs cmp).
Proof.
  apply (page_never_raises ExactLP.linprog Shipped.materials
           Shipped.ratios_july Shipped.initial ExactLPFacts.meets_contract).
  reflexivity.
Defined.

(** The shipped widgets with a recipe of eight entries. *)
Lemma page_recipe_mismatch_witness :
  page ExactLP.linprog Shipped.materials (0 :: Shipped.ratios_july)
    Shipped.initial
    = inl ValueError.
Proof.
  apply (page_recipe_mismatch ExactLP.linprog Shipped.materials
           (0 :: Shipped.ratios_july) Shipped.initial
           ExactLPFacts.meets_contract);
    [simpl; lia |].
  split; [| split; vm_compute; discriminate].
  intros i Hi.
  do 7 (destruct i as [|i]; [vm_compute; discriminate |]).
  simpl in Hi. lia.
Defined.

(** Minima of 60 % for each of two materials. *)
Lemma page_error_iff_limits_witness :
  page ExactLP.linprog ["A"; "B"]%string [50; 50]
    (mkSidebar (fun i => nth i [10; 2] 0) (fun _ => 60) (fun _ => 100) 15 20)
  = inr (st_error failure_message).
Proof.
  apply (page_error_iff_limits ExactLP.linprog ["A"; "B"]%string [50; 50]
           (mkSidebar (fun i => nth i [10; 2] 0) (fun _ => 60) (fun _ => 100)
              15 20) ExactLPFacts.meets_contract).
  intros (_ & Hmin & _). vm_compute in Hmin. apply Hmin. reflexivity.
Defined.

(** A minimum of 60 % above a maximum of 40 % for the second material. *)
Lemma crossed_limits_error_witness :
  page ExactLP.linprog ["A"; "B"]%string [50; 50]
    (mkSidebar (fun i => nth i [10; 2] 0) (fun i => nth i [0; 60] 0)
       (fun i => nth i [100; 40] 0) 15 20)
  = inr (st_error failure_message).
Proof.
  apply (crossed_limits_error ExactLP.linprog ["A"; "B"]%string [50; 50]
           (mkSidebar (fun i => nth i [10; 2] 0) (fun i => nth i [0; 60] 0)
              (fun i => nth i [100; 40] 0) 15 20) 1
           ExactLPFacts.meets_contract);
    [simpl; lia | vm_compute; reflexivity].
Defined.

(** The shipped page: the optimised percentages total 100. *)
Lemma results_within_limits_witness :
  exists xs cmp,
    page ExactLP.linprog Shipped.materials Shipped.ratios_july Shipped.initial
      = inr (st_results xs cmp) /\
    Np.sum (as_percent xs) == 100.
Proof.
  do 2 eexists. split; [vm_compute; reflexivity |].
  eapply (results_within_limits ExactLP.linprog Shipped.materials
            Shipped.ratios_july Shipped.initial _ _
            ExactLPFacts.meets_contract).
  vm_compute; reflexivity.
Defined.

(** The shipped page: seven optimised cost contributions. *)
Lemma table_columns_witness :
  exists xs cmp,
    page ExactLP.linprog Shipped.materials Shipped.ratios_july Shipped.initial
      = inr (st_results xs cmp) /\
    length (optimal_cost_breakdown cmp) = length Shipped.materials.
Proof.
  do 2 eexists. split; [vm_compute; reflexivity |].
  refine (proj2 (proj2 (proj2 (proj2
            (table_columns ExactLP.linprog Shipped.materials
               Shipped.ratios_july Shipped.initial _ _
               ExactLPFacts.meets_contract _))))).
  vm_compute; reflexivity.
Defined.

(** The shipped page: the optimised slices total the optimised cost. *)
Lemma breakdowns_total_witness :
  exists xs cmp,
    page ExactLP.linprog Shipped.materials Shipped.ratios_july Shipped.initial
      = inr (st_results xs cmp) /\
    Np.sum (optimal_cost_breakdown cmp) == min_cost cmp.
Proof.
  do 2 eexists. split; [vm_compute; reflexivity |].
  eapply (breakdowns_total ExactLP.linprog Shipped.materials
            Shipped.ratios_july Shipped.initial _ _
            ExactLPFacts.meets_contract).
  vm_compute; reflexivity.
Defined.

Lemma shipped_in_range : in_range Shipped.materials Shipped.initial.
Proof.
  intros i Hi.
  do 7 (destruct i as [|i];
        [repeat split; vm_compute; discriminate |]).
  simpl in Hi. lia.
Qed.

(** The shipped page: the optimised cost is not negative. *)
Lemma optimal_cost_between_prices_witness :
  exists xs cmp,
    page ExactLP.linprog Shipped.materials Shipped.ratios_july Shipped.initial
      = inr (st_results xs cmp) /\
    0 <= min_cost cmp.
Proof.
  do 2 eexists. split; [vm_compute; reflexivity |].
  refine (proj1 (proj2
            (optimal_cost_between_prices ExactLP.linprog Shipped.materials
               Shipped.ratios_july Shipped.initial _ _
               ExactLPFacts.meets_contract shipped_in_range _))).
  vm_compute; reflexivity.
Defined.

(** The shipped page: no negative slice in the first pie chart. *)
Lemma pie_slices_nonneg_witness :
  exists xs cmp,
    page ExactLP.linprog Shipped.materials Shipped.ratios_july Shipped.initial
      = inr (st_results xs cmp) /\
    Forall (fun z => 0 <= z) (current_cost_breakdown cmp).
Proof.
  do 2 eexists. split; [vm_compute; reflexivity |].
  refine (proj1 (pie_slices_nonneg ExactLP.linprog Shipped.materials
                   Shipped.ratios_july Shipped.initial _ _
                   ExactLPFacts.meets_contract shipped_in_range _ _));
    [repeat constructor; vm_compute; discriminate | vm_compute; reflexivity].
Defined.

(** The shipped prices and recipe. *)
Lemma initial_page_shows_results_witness :
  exists xs cmp,
    page ExactLP.linprog Shipped.materials Shipped.ratios_july
      (initial_sidebar Shipped.prices_july Shipped.ratios_july)
      = inr (st_results xs cmp) /\
    0 <= savings cmp.
Proof.
  apply (initial_page_shows_results ExactLP.linprog Shipped.materials
           Shipped.prices_july Shipped.ratios_july
           ExactLPFacts.meets_contract);
    [reflexivity | reflexivity | | vm_compute; reflexivity].
  repeat constructor; vm_compute; discriminate.
Defined.

Lemma initial_in_range_witness :
  in_range Shipped.materials
    (initial_sidebar Shipped.prices_july Shipped.ratios_july).
Proof.
  apply (initial_in_range Shipped.materials Shipped.prices_july
           Shipped.ratios_july); [reflexivity | reflexivity | |];
    repeat constructor; vm_compute; discriminate.
Defined.

(** Pinning the cheaper material at 30 % against leaving it free. *)
Lemma wider_limits_cheaper_witness : 2 <= 760 # 100.
Proof.
  apply (wider_limits_cheaper ExactLP.linprog ["A"; "B"]%string [10; 2]
           [0; 3 # 10] [1; 3 # 10] [0; 0] [1; 1]
           [7 # 10; 3 # 10] [0; 1] (760 # 100) 2 ExactLPFacts.meets_contract);
    [repeat constructor; vm_compute; discriminate
    | repeat constructor; vm_compute; discriminate
    | vm_compute; reflexivity
    | vm_compute; reflexivity].
Defined.

(** The second material at price 2 and at price 4. *)
Lemma dearer_prices_dearer_blend_witness : 2 <= 4.
Proof.
  apply (dearer_prices_dearer_blend ExactLP.linprog ["A"; "B"]%string
           [10; 2] [10; 4] [0; 0] [1; 1] [0; 1] [0; 1] 2 4
           ExactLPFacts.meets_contract);
    [repeat constructor; vm_compute; discriminate
    | repeat constructor; vm_compute; discriminate
    | vm_compute; reflexivity
    | vm_compute; reflexivity].
Defined.
